(** * obsidian-scatter: the data pipeline and the coordinate transforms

    A shallow embedding of the pure functions of [data.ts] and [render.ts]
    (extraction of values from Bases entries, axis bounds, linear scales,
    colour assignment, screen transformation, tick generation), of the point
    elements and the point index of [interactions.ts], and of the decisions
    of the view in [scatter-view.ts], followed by the properties the
    specification states about them and by further properties of the
    code.  The functions whose results depend on rounding are embedded over
    binary64 as well (module [Double]), and what is stated about their
    values is stated there. *)

From Stdlib Require Import QArith Qcanon Qpower Lia Lqa Ascii String Floats.
From stdpp Require Import base option list gmap strings numbers pretty.

Local Open Scope string_scope.
Local Open Scope list_scope.

(** ** JavaScript numbers

    A JavaScript [number] is an IEEE-754 double.  The embedding keeps the
    special values the code tests for ([NaN], [+Infinity], [-Infinity]) and
    represents every finite value by an exact rational: arithmetic on finite
    values is exact, so rounding, overflow and the sign of zero are not
    represented.  This is the reading of the specification, whose data model
    types every coordinate as a real.  It carries the statements that do
    not depend on how a result is rounded; the others are made on the
    binary64 embedding of module [Double]. *)
Module JsNumber.

Inductive number : Type :=
| NaN
| Infinity (negative : bool)
| Fin (q : Qc).

#[global] Instance number_eq_dec : EqDecision number.
Proof. solve_decision. Defined.

Definition is_neg (q : Qc) : bool := bool_decide (q < 0)%Qc.

Definition of_Z (z : Z) : number := Fin (Qc_of_Z z).
Definition of_nat (n : nat) : number := of_Z (Z.of_nat n).

Definition zero : number := Fin 0%Qc.
Definition one : number := Fin 1%Qc.
Definition two : number := of_Z 2.

(** Unary minus. *)
Definition neg (a : number) : number :=
  match a with
  | NaN => NaN
  | Infinity s => Infinity (negb s)
  | Fin x => Fin (- x)%Qc
  end.

(** [a + b] *)
Definition add (a b : number) : number :=
  match a, b with
  | NaN, _ | _, NaN => NaN
  | Infinity s, Infinity t => if Bool.eqb s t then Infinity s else NaN
  | Infinity s, Fin _ | Fin _, Infinity s => Infinity s
  | Fin x, Fin y => Fin (x + y)%Qc
  end.

(** [a - b] *)
Definition sub (a b : number) : number := add a (neg b).

(** [a * b] *)
Definition mul (a b : number) : number :=
  match a, b with
  | NaN, _ | _, NaN => NaN
  | Infinity s, Infinity t => Infinity (xorb s t)
  | Infinity s, Fin y | Fin y, Infinity s =>
      if decide (y = 0%Qc) then NaN else Infinity (xorb s (is_neg y))
  | Fin x, Fin y => Fin (x * y)%Qc
  end.

(** [a / b]: a finite value divided by zero is an infinity (or [NaN] for
    [0 / 0]), as in JavaScript; the zero divisor is taken as [+0]. *)
Definition div (a b : number) : number :=
  match a, b with
  | NaN, _ | _, NaN => NaN
  | Infinity _, Infinity _ => NaN
  | Infinity s, Fin y => Infinity (xorb s (is_neg y))
  | Fin _, Infinity _ => Fin 0%Qc
  | Fin x, Fin y =>
      if decide (y = 0%Qc)
      then (if decide (x = 0%Qc) then NaN else Infinity (is_neg x))
      else Fin (x / y)%Qc
  end.

(** [Math.abs] *)
Definition Math_abs (a : number) : number :=
  match a with
  | NaN => NaN
  | Infinity _ => Infinity false
  | Fin x => Fin (if is_neg x then - x else x)%Qc
  end.

(** [a === b] on numbers: [NaN] is not equal to itself. *)
Definition strict_eq (a b : number) : bool :=
  match a, b with
  | NaN, _ | _, NaN => false
  | Infinity s, Infinity t => Bool.eqb s t
  | Fin x, Fin y => bool_decide (x = y)
  | _, _ => false
  end.

(** [a < b] *)
Definition ltb (a b : number) : bool :=
  match a, b with
  | NaN, _ | _, NaN => false
  | Infinity s, Infinity t => s && negb t
  | Infinity s, Fin _ => s
  | Fin _, Infinity t => negb t
  | Fin x, Fin y => bool_decide (x < y)%Qc
  end.

(** Truthiness of a number: [0] and [NaN] are falsy. *)
Definition truthy (a : number) : bool :=
  match a with
  | NaN => false
  | Infinity _ => true
  | Fin x => negb (bool_decide (x = 0%Qc))
  end.

(** [a || b] on numbers. *)
Definition or_else (a b : number) : number := if truthy a then a else b.

Definition Number_isNaN (a : number) : bool :=
  match a with NaN => true | _ => false end.

Definition Number_isFinite (a : number) : bool :=
  match a with Fin _ => true | _ => false end.

(** [Math.min(a, b)] and [Math.max(a, b)]: [NaN] is contagious. *)
Definition min2 (a b : number) : number :=
  match a, b with
  | NaN, _ | _, NaN => NaN
  | _, _ => if ltb b a then b else a
  end.

Definition max2 (a b : number) : number :=
  match a, b with
  | NaN, _ | _, NaN => NaN
  | _, _ => if ltb a b then b else a
  end.

(** [Math.min(...values)] starts from [+Infinity], [Math.max(...values)]
    from [-Infinity]. *)
Definition Math_min (values : list number) : number :=
  foldr min2 (Infinity false) values.

Definition Math_max (values : list number) : number :=
  foldr max2 (Infinity true) values.

End JsNumber.

Export JsNumber.

Declare Scope js_scope.
Delimit Scope js_scope with js.
Bind Scope js_scope with number.
Infix "+" := add : js_scope.
Infix "-" := sub : js_scope.
Infix "*" := mul : js_scope.
Infix "/" := div : js_scope.
Infix "===" := strict_eq (at level 70) : js_scope.
Infix "||" := or_else : js_scope.

(** ** The host interface: Bases entries and the values they hold *)
Module Host.

(** A call into the host either returns or throws; a thrown error is kept as
    the text [String(e)] gives for it. *)
Inductive outcome (A : Type) : Type :=
| Returns (a : A)
| Throws (e : string).
Arguments Returns {A} a.
Arguments Throws {A} e.

Definition bind {A B : Type} (m : outcome A) (k : A → outcome B) : outcome B :=
  match m with
  | Returns a => k a
  | Throws e => Throws e
  end.

(** [try { body } catch (e) { handler(String(e)) }] *)
Definition try_catch {A : Type} (body : outcome A) (handler : string → A) : A :=
  match body with
  | Returns a => a
  | Throws e => handler e
  end.

(** What [entry.getValue] hands back: [null], [undefined], or a [Value]
    wrapper object.  The wrapper may or may not carry an [isEmpty] method;
    the methods themselves may throw. *)
Inductive JsValue : Type :=
| JNull
| JUndefined
| JObject (isEmpty : option (outcome bool)) (toString : outcome string).

Record TFile : Type := mkTFile {
  path : string;
  basename : string
}.

Record BasesEntry : Type := mkEntry {
  file : TFile;
  getValue : string → outcome JsValue
}.

(** [value.toString()]; on [null] and [undefined] the property access is a
    TypeError. *)
Definition toString (value : JsValue) : outcome string :=
  match value with
  | JNull => Throws "TypeError: Cannot read properties of null"
  | JUndefined => Throws "TypeError: Cannot read properties of undefined"
  | JObject _ s => s
  end.

End Host.

Export Host.

(** Sequencing of host calls is written [x ← m; k]. *)
#[global] Instance outcome_ret : MRet outcome := λ A a, Returns a.
#[global] Instance outcome_bind : MBind outcome := λ A B k m, bind m k.

(** ** types.ts *)
Module Types.

Record ScatterConfig : Type := mkConfig {
  xAxis : option string;
  yAxis : option string;
  colorBy : option string
}.

Record ScatterPoint : Type := mkPoint {
  x : number;
  y : number;
  category : option string;
  label : string;
  pfile : TFile;
  entry : BasesEntry
}.

Inductive NumericExtractionResult : Type :=
| NumSuccess (value : number)
| NumFailure (reason : string).

Inductive CategoryExtractionResult : Type :=
| CatSuccess (value : string)
| CatFailure.

Record SkippedEntry : Type := mkSkipped {
  sfile : TFile;
  reason : string
}.

Record DataExtractionResult : Type := mkData {
  points : list ScatterPoint;
  skipped : list SkippedEntry;
  categories : list string
}.

Record AxisBounds : Type := mkAxis {
  min : number;
  max : number
}.

#[global] Instance AxisBounds_eq_dec : EqDecision AxisBounds.
Proof. solve_decision. Defined.

Record PlotBounds : Type := mkPlot {
  bx : AxisBounds;
  by_ : AxisBounds
}.

#[global] Instance PlotBounds_eq_dec : EqDecision PlotBounds.
Proof. solve_decision. Defined.

Record InnerDimensions : Type := mkInner {
  width : number;
  height : number
}.

(** [RenderedPoint extends ScatterPoint]: the six fields of a point and the
    three added by the screen transformation. *)
Record RenderedPoint : Type := mkRendered {
  rx : number;
  ry : number;
  rcategory : option string;
  rlabel : string;
  rfile : TFile;
  rentry : BasesEntry;
  screenX : number;
  screenY : number;
  color : string
}.

Record ColorPalette : Type := mkPalette {
  fallback : string;
  colors : list string
}.

Definition DEFAULT_PALETTE : ColorPalette :=
  {| fallback := "var(--text-muted)";
     colors := [ "var(--color-blue)"; "var(--color-green)";
                 "var(--color-yellow)"; "var(--color-orange)";
                 "var(--color-red)"; "var(--color-purple)";
                 "var(--color-pink)"; "var(--color-cyan)" ] |}.

(** [entryToPoint] returns one of two shapes. *)
Inductive PointOrSkipped : Type :=
| IsPoint (p : ScatterPoint)
| IsSkipped (s : SkippedEntry).

End Types.

Export Types.

(** ** data.ts *)
Module Data.

(** The double-quote character of the template literals. *)
Definition dq : string := String "034"%char EmptyString.

(** [isValueEmpty]: [null] and [undefined] are empty; a wrapper with an
    [isEmpty] method answers for itself; any other object is truthy, so
    [!value] is [false]. *)
Definition isValueEmpty (value : JsValue) : outcome bool :=
  match value with
  | JNull | JUndefined => Returns true
  | JObject (Some isEmpty) _ => isEmpty
  | JObject None _ => Returns false
  end.

Section WithNumber.

(** The built-in [Number(string)] conversion. *)
Variable Number : string → number.

(** The [try] block of [extractNumericValue]. *)
Definition extractNumericValue_body (entry : BasesEntry) (propertyId : string)
  : outcome NumericExtractionResult :=
  value ← getValue entry propertyId;
  empty ← match value with
          | JNull | JUndefined => Returns true
          | _ => isValueEmpty value
          end;
  if (empty : bool) then
    Returns (NumFailure ("Property " +:+ dq +:+ propertyId +:+ dq
                           +:+ " is empty"))
  else
    stringValue ← toString value;
    let numericValue := Number stringValue in
    if Number_isNaN numericValue then
      Returns (NumFailure ("Property " +:+ dq +:+ propertyId +:+ dq +:+ " value "
                             +:+ dq +:+ stringValue +:+ dq +:+ " is not numeric"))
    else if negb (Number_isFinite numericValue) then
      Returns (NumFailure ("Property " +:+ dq +:+ propertyId +:+ dq
                             +:+ " value is not finite"))
    else
      Returns (NumSuccess numericValue).

Definition extractNumericValue (entry : BasesEntry) (propertyId : string)
  : NumericExtractionResult :=
  try_catch (extractNumericValue_body entry propertyId)
    (λ e, NumFailure ("Failed to read property " +:+ dq +:+ propertyId +:+ dq
                        +:+ ": " +:+ e)).

Definition extractCategoryValue (entry : BasesEntry) (propertyId : option string)
  : CategoryExtractionResult :=
  match propertyId with
  | None => CatFailure
  | Some propertyId =>
      try_catch
        (value ← getValue entry propertyId;
         empty ← match value with
                 | JNull | JUndefined => Returns true
                 | _ => isValueEmpty value
                 end;
         if (empty : bool) then Returns CatFailure
         else s ← toString value; Returns (CatSuccess s))
        (λ _, CatFailure)
  end.

Definition entryToPoint (entry : BasesEntry) (config : ScatterConfig)
  : PointOrSkipped :=
  match xAxis config with
  | None =>
      IsSkipped {| sfile := file entry; reason := "X axis property not configured" |}
  | Some xAxis =>
  match yAxis config with
  | None =>
      IsSkipped {| sfile := file entry; reason := "Y axis property not configured" |}
  | Some yAxis =>
  match extractNumericValue entry xAxis with
  | NumFailure r => IsSkipped {| sfile := file entry; reason := r |}
  | NumSuccess xValue =>
  match extractNumericValue entry yAxis with
  | NumFailure r => IsSkipped {| sfile := file entry; reason := r |}
  | NumSuccess yValue =>
      let categoryResult := extractCategoryValue entry (colorBy config) in
      let category :=
        match categoryResult with
        | CatSuccess v => Some v
        | CatFailure => None
        end in
      IsPoint {| x := xValue; y := yValue; category := category;
                 label := basename (file entry); pfile := file entry;
                 entry := entry |}
  end end end end.

(** [extractCategories]: the loop over [points], with the [seen] set and
    the [categories] array as its state. *)
Definition extractCategories_step (st : gset string * list string)
  (point : ScatterPoint) : gset string * list string :=
  let '(seen, categories) := st in
  match category point with
  | Some c =>
      if bool_decide (c ∈ seen) then (seen, categories)
      else ({[ c ]} ∪ seen, categories ++ [c])
  | None => (seen, categories)
  end.

Definition extractCategories (points : list ScatterPoint) : list string :=
  snd (foldl extractCategories_step (∅, []) points).

(** [extractDataFromEntries]: the loop fills [points] and [skipped]. *)
Definition extractDataFromEntries_step (config : ScatterConfig)
  (st : list ScatterPoint * list SkippedEntry) (entry : BasesEntry)
  : list ScatterPoint * list SkippedEntry :=
  let '(points, skipped) := st in
  match entryToPoint entry config with
  | IsPoint p => (points ++ [p], skipped)
  | IsSkipped s => (points, skipped ++ [s])
  end.

Definition extractDataFromEntries (entries : list BasesEntry)
  (config : ScatterConfig) : DataExtractionResult :=
  let '(points, skipped) :=
    foldl (extractDataFromEntries_step config) ([], []) entries in
  {| points := points; skipped := skipped;
     categories := extractCategories points |}.

End WithNumber.

(** The default value of the [paddingPercent] parameter. *)
Definition DEFAULT_PADDING : number := Fin (Q2Qc (1 # 20)).

(** [calculateAxisBounds]; the optional argument is [None] when the caller
    leaves it out. *)
Definition calculateAxisBounds (values : list number)
  (paddingPercent : option number) : option AxisBounds :=
  let paddingPercent := default DEFAULT_PADDING paddingPercent in
  if bool_decide (length values = 0%nat) then None
  else
    let min := Math_min values in
    let max := Math_max values in
    let range := (max - min)%js in
    let padding :=
      if (range === zero)%js
      then (Math_abs min * paddingPercent || one)%js
      else (range * paddingPercent)%js in
    Some {| min := (min - padding)%js; max := (max + padding)%js |}.

Definition calculatePlotBounds (points : list ScatterPoint)
  (paddingPercent : option number) : option PlotBounds :=
  let paddingPercent := default DEFAULT_PADDING paddingPercent in
  if bool_decide (length points = 0%nat) then None
  else
    let xValues := map x points in
    let yValues := map y points in
    match calculateAxisBounds xValues (Some paddingPercent),
          calculateAxisBounds yValues (Some paddingPercent) with
    | Some xBounds, Some yBounds => Some {| bx := xBounds; by_ := yBounds |}
    | _, _ => None
    end.

Definition createLinearScale (domainMin domainMax rangeMin rangeMax : number)
  : number → number :=
  let domainSpan := (domainMax - domainMin)%js in
  let rangeSpan := (rangeMax - rangeMin)%js in
  if (domainSpan === zero)%js then
    λ _, ((rangeMin + rangeMax) / two)%js
  else
    λ value,
      let normalized := ((value - domainMin) / domainSpan)%js in
      (rangeMin + normalized * rangeSpan)%js.

Definition createInverseLinearScale (domainMin domainMax rangeMin rangeMax : number)
  : number → number :=
  let domainSpan := (domainMax - domainMin)%js in
  let rangeSpan := (rangeMax - rangeMin)%js in
  if (rangeSpan === zero)%js then
    λ _, ((domainMin + domainMax) / two)%js
  else
    λ screenValue,
      let normalized := ((screenValue - rangeMin) / rangeSpan)%js in
      (domainMin + normalized * domainSpan)%js.

End Data.

Export Data.

(** ** render.ts *)
Module Render.

(** [index % length] on array indices: the remainder by zero is [NaN],
    rendered here as [None]. *)
Definition remainder (index len : nat) : option nat :=
  if bool_decide (len = 0%nat) then None else Some (index mod len)%nat.

(** [array[i]]: [undefined] (here [None]) when the index is [NaN] or past
    the end. *)
Definition array_get {A : Type} (array : list A) (i : option nat) : option A :=
  match i with
  | Some i => array !! i
  | None => None
  end.

(** The [forEach] loop of [createCategoryColorMap], from position [index]
    on.  A value of the map is [None] when [palette.colors[colorIndex]] is
    [undefined]. *)
Fixpoint createCategoryColorMap_loop (palette : ColorPalette) (index : nat)
  (categories : list string) (colorMap : gmap string (option string))
  : gmap string (option string) :=
  match categories with
  | [] => colorMap
  | category :: rest =>
      let colorIndex := remainder index (length (colors palette)) in
      createCategoryColorMap_loop palette (S index) rest
        (<[ category := array_get (colors palette) colorIndex ]> colorMap)
  end.

Definition createCategoryColorMap (categories : list string)
  (palette : option ColorPalette) : gmap string (option string) :=
  let palette := default DEFAULT_PALETTE palette in
  createCategoryColorMap_loop palette 0 categories ∅.

(** [colorMap.get(c) ?? fallback]: a missing key and an [undefined] value
    both give the fallback. *)
Definition getPointColor (point : ScatterPoint)
  (colorMap : gmap string (option string)) (fallback : option string) : string :=
  let fallback := default (Types.fallback DEFAULT_PALETTE) fallback in
  match category point with
  | None => fallback
  | Some c =>
      match colorMap !! c with
      | Some (Some color) => color
      | _ => fallback
      end
  end.

Definition transformPointsToScreen (points : list ScatterPoint)
  (bounds : PlotBounds) (inner : InnerDimensions)
  (colorMap : gmap string (option string)) (palette : option ColorPalette)
  : list RenderedPoint :=
  let palette := default DEFAULT_PALETTE palette in
  let scaleX :=
    createLinearScale (min (bx bounds)) (max (bx bounds)) zero (width inner) in
  let scaleY :=
    createLinearScale (min (by_ bounds)) (max (by_ bounds)) (height inner) zero in
  map (λ point,
         {| rx := x point; ry := y point; rcategory := category point;
            rlabel := label point; rfile := pfile point; rentry := entry point;
            screenX := scaleX (x point);
            screenY := scaleY (y point);
            color :=
              getPointColor point colorMap (Some (Types.fallback palette)) |})
      points.

Definition DEFAULT_TICK_COUNT : nat := 5.

(** [generateTicks]; [count] is the length of the array to build. *)
Definition generateTicks (bounds : AxisBounds) (count : option nat) : list number :=
  let count := default DEFAULT_TICK_COUNT count in
  let range := (max bounds - min bounds)%js in
  let step := (range / (of_nat count - one))%js in
  map (λ i, (min bounds + of_nat i * step)%js) (seq 0 count).

End Render.

Export Render.

(** ** The scales with their divisions monitored

    JavaScript's [/] never fails, it returns an infinity or [NaN] on a zero
    divisor.  To state that the scales never divide by zero, the two scale
    functions are repeated here with every division replaced by one that
    reports a zero divisor. *)
Module Monitored.

Definition div_checked (a b : number) : option number :=
  if (b === zero)%js then None else Some (a / b)%js.

Definition createLinearScale_checked
  (domainMin domainMax rangeMin rangeMax : number) : number → option number :=
  let domainSpan := (domainMax - domainMin)%js in
  let rangeSpan := (rangeMax - rangeMin)%js in
  if (domainSpan === zero)%js then
    λ _, div_checked (rangeMin + rangeMax)%js two
  else
    λ value,
      normalized ← div_checked (value - domainMin)%js domainSpan;
      Some (rangeMin + normalized * rangeSpan)%js.

Definition createInverseLinearScale_checked
  (domainMin domainMax rangeMin rangeMax : number) : number → option number :=
  let domainSpan := (domainMax - domainMin)%js in
  let rangeSpan := (rangeMax - rangeMin)%js in
  if (rangeSpan === zero)%js then
    λ _, div_checked (domainMin + domainMax)%js two
  else
    λ screenValue,
      normalized ← div_checked (screenValue - rangeMin)%js rangeSpan;
      Some (domainMin + normalized * domainSpan)%js.

End Monitored.

Export Monitored.

(** ** The specification's wording, for comparison with the code *)
Module SpecWords.

(** A validation check passes ([None]) or fails with a reason. *)
Definition check : Type := option string.

(** First failure wins. *)
Fixpoint first_failure (checks : list check) : option string :=
  match checks with
  | [] => None
  | Some r :: _ => Some r
  | None :: rest => first_failure rest
  end.

Definition check_configured (axisName : string) (axis : option string) : check :=
  match axis with
  | None => Some (axisName +:+ " axis property not configured")
  | Some _ => None
  end.

Section WithNumber.
Variable Number : string → number.

(** The extraction check of an axis; on an axis that is not configured there
    is nothing to extract, and the configuration check reports it. *)
Definition check_extraction (entry : BasesEntry) (axis : option string) : check :=
  match axis with
  | None => None
  | Some propertyId =>
      match extractNumericValue Number entry propertyId with
      | NumFailure r => Some r
      | NumSuccess _ => None
      end
  end.

(** The order of checks as the specification words it. *)
Definition checks_in_spec_order (entry : BasesEntry) (config : ScatterConfig)
  : list check :=
  [ check_configured "X" (xAxis config);
    check_extraction entry (xAxis config);
    check_configured "Y" (yAxis config);
    check_extraction entry (yAxis config) ].

(** The order of checks as [entryToPoint] has them. *)
Definition checks_in_code_order (entry : BasesEntry) (config : ScatterConfig)
  : list check :=
  [ check_configured "X" (xAxis config);
    check_configured "Y" (yAxis config);
    check_extraction entry (xAxis config);
    check_extraction entry (yAxis config) ].

End WithNumber.

(** The failure reasons of the value extractor, as the specification
    gives them. *)
Definition reason_empty (id : string) : string :=
  "Property " +:+ dq +:+ id +:+ dq +:+ " is empty".

Definition reason_not_numeric (id raw : string) : string :=
  "Property " +:+ dq +:+ id +:+ dq +:+ " value " +:+ dq +:+ raw +:+ dq
    +:+ " is not numeric".

Definition reason_not_finite (id : string) : string :=
  "Property " +:+ dq +:+ id +:+ dq +:+ " value is not finite".

Definition reason_failed (id err : string) : string :=
  "Failed to read property " +:+ dq +:+ id +:+ dq +:+ ": " +:+ err.

Definition skip_reason (r : PointOrSkipped) : option string :=
  match r with
  | IsSkipped s => Some (reason s)
  | IsPoint _ => None
  end.

Definition category_of (r : CategoryExtractionResult) : option string :=
  match r with
  | CatSuccess v => Some v
  | CatFailure => None
  end.

(** The bounds calculator in the specification's terms: real values, their
    minimum and maximum, and the padding rule. *)
Definition is_minimum (m : Qc) (values : list Qc) : Prop :=
  m ∈ values ∧ Forall (λ v, m ≤ v)%Qc values.

Definition is_maximum (m : Qc) (values : list Qc) : Prop :=
  m ∈ values ∧ Forall (λ v, v ≤ m)%Qc values.

Definition absolute (v : Qc) : Qc := if decide (v < 0)%Qc then (- v)%Qc else v.

(** [padding = range * fraction] when the range is not zero; otherwise
    [|min| * fraction], and [1] when that is zero too. *)
Definition spec_padding (lo hi fraction : Qc) : Qc :=
  let range := (hi - lo)%Qc in
  if decide (range = 0%Qc) then
    if decide ((absolute lo * fraction)%Qc = 0%Qc) then 1%Qc
    else (absolute lo * fraction)%Qc
  else (range * fraction)%Qc.

Definition five_percent : Qc := Q2Qc (5 # 100).

(** The fields of the input point that a rendered point carries. *)
Definition input_fields (r : RenderedPoint) : ScatterPoint :=
  {| x := rx r; y := ry r; category := rcategory r; label := rlabel r;
     pfile := rfile r; entry := rentry r |}.

(** The distinct labels of a list, in first-seen order. *)
Fixpoint distinct_first_seen (labels : list string) : list string :=
  match labels with
  | [] => []
  | c :: rest => c :: filter (λ d, d ≠ c) (distinct_first_seen rest)
  end.

(** The categories observed on a list of points, absent ones left out. *)
Definition observed_categories (points : list ScatterPoint) : list string :=
  omap category points.

End SpecWords.

Export SpecWords.

(** ** Sample inputs *)
Module Samples.

Definition digit_of (c : ascii) : option Z :=
  let n := (Z.of_nat (nat_of_ascii c) - 48)%Z in
  if ((0 <=? n) && (n <=? 9))%Z then Some n else None.

(** Plain decimal literals: digits with at most one decimal point. *)
Fixpoint decimal (s : string) (acc : Z) (scale : positive) (frac seen : bool)
  : option Q :=
  match s with
  | EmptyString => if seen then Some (acc # scale) else None
  | String c rest =>
      if bool_decide (c = "."%char) then
        if frac then None else decimal rest acc scale true seen
      else
        match digit_of c with
        | Some d =>
            decimal rest (10 * acc + d)%Z
              (if frac then (10 * scale)%positive else scale) frac true
        | None => None
        end
  end.

(** A stand-in for the built-in [Number(string)], which it follows on the
    empty string, on [Infinity] and on signed plain decimal literals; every
    other string is taken as not numeric. *)
Definition sampleNumber (s : string) : number :=
  if bool_decide (s = "") then zero
  else if bool_decide (s = "Infinity") then Infinity false
  else if bool_decide (s = "-Infinity") then Infinity true
  else
    match s with
    | String "-"%char rest =>
        match decimal rest 0 1 false false with
        | Some q => Fin (Q2Qc (- q))
        | None => NaN
        end
    | _ =>
        match decimal s 0 1 false false with
        | Some q => Fin (Q2Qc q)
        | None => NaN
        end
    end.

Definition note (name : string) : TFile :=
  {| path := name +:+ ".md"; basename := name |}.

(** A [Value] wrapper around text, with an [isEmpty] method. *)
Definition text (s : string) : JsValue :=
  JObject (Some (Returns (bool_decide (s = "")))) (Returns s).

(** An entry given by its list of properties; a property that is not listed
    reads as [null]. *)
Fixpoint lookup_prop (props : list (string * JsValue)) (propertyId : string)
  : JsValue :=
  match props with
  | [] => JNull
  | (k, v) :: rest =>
      if bool_decide (k = propertyId) then v else lookup_prop rest propertyId
  end.

Definition entryOf (name : string) (props : list (string * JsValue)) : BasesEntry :=
  {| file := note name;
     getValue := λ propertyId, Returns (lookup_prop props propertyId) |}.

(** An entry whose property lookup throws. *)
Definition brokenEntry (name : string) (err : string) : BasesEntry :=
  {| file := note name; getValue := λ _, Throws err |}.

(** The test suite's minimal point. *)
Definition mockPoint (x y : Z) (category : option string) : ScatterPoint :=
  {| x := of_Z x; y := of_Z y; category := category; label := "test";
     pfile := note "test"; entry := entryOf "test" [] |}.

(** Points with the categories C, A, B, A, absent, C. *)
Definition sixPoints : list ScatterPoint :=
  [ mockPoint 1 1 (Some "C"); mockPoint 2 2 (Some "A");
    mockPoint 3 3 (Some "B"); mockPoint 4 4 (Some "A");
    mockPoint 5 5 None; mockPoint 6 6 (Some "C") ].

(** Bounds whose X axis is degenerate, and the inner dimensions of the
    test suite. *)
Definition flatBounds : PlotBounds :=
  {| bx := {| min := of_Z 5; max := of_Z 5 |};
     by_ := {| min := of_Z 0; max := of_Z 100 |} |}.

Definition squareBounds : PlotBounds :=
  {| bx := {| min := of_Z 0; max := of_Z 100 |};
     by_ := {| min := of_Z 0; max := of_Z 100 |} |}.

Definition testInner : InnerDimensions :=
  {| width := of_Z 500; height := of_Z 400 |}.

Definition testPalette : ColorPalette :=
  {| fallback := "gray"; colors := ["red"; "green"; "blue"] |}.

End Samples.

Import Samples.

(** ** data.ts: the type guards and the flattening of groups *)
Module DataGuards.

(** The own property names of the two shapes [entryToPoint] returns, as its
    object literals list them. *)
Definition keys (result : PointOrSkipped) : list string :=
  match result with
  | IsPoint _ => ["x"; "y"; "category"; "label"; "file"; "entry"]
  | IsSkipped _ => ["file"; "reason"]
  end.

(** [("x" in result) && ("y" in result)] *)
Definition isScatterPoint (result : PointOrSkipped) : bool :=
  bool_decide ("x" ∈ keys result) && bool_decide ("y" ∈ keys result).

(** ["reason" in result] *)
Definition isSkippedEntry (result : PointOrSkipped) : bool :=
  bool_decide ("reason" ∈ keys result).

(** A group of the host's grouped data. *)
Record Group : Type := mkGroup {
  entries : list BasesEntry
}.

(** [groupedData.flatMap((group) => [...group.entries])] *)
Definition flattenGroupedData (groupedData : list Group) : list BasesEntry :=
  groupedData ≫= entries.

End DataGuards.

Export DataGuards.

(** ** render.ts: dimensions and the point elements *)
Module RenderElements.

Record Margin : Type := mkMargin {
  top : number;
  right : number;
  bottom : number;
  left : number
}.

Record ViewportDimensions : Type := mkViewport {
  vwidth : number;
  vheight : number;
  margin : Margin
}.

Definition DEFAULT_VIEWPORT : ViewportDimensions :=
  {| vwidth := of_Z 800; vheight := of_Z 600;
     margin := {| top := of_Z 20; right := of_Z 20;
                  bottom := of_Z 40; left := of_Z 50 |} |}.

Definition calculateInnerDimensions (viewport : ViewportDimensions)
  : InnerDimensions :=
  {| width := (vwidth viewport - left (margin viewport)
               - right (margin viewport))%js;
     height := (vheight viewport - top (margin viewport)
                - bottom (margin viewport))%js |}.

Record PointRenderConfig : Type := mkPointConfig {
  radius : number;
  opacity : number;
  hoverRadius : number
}.

Definition DEFAULT_POINT_CONFIG : PointRenderConfig :=
  {| radius := of_Z 8; opacity := Fin (Q2Qc (7 # 10)); hoverRadius := of_Z 12 |}.

(** An element: its tag, its attributes in the order they were first set,
    the properties of its inline style, and its children. *)
#[local] Unset Elimination Schemes.
Inductive Element : Type :=
| mkElement (tag : string) (attributes : list (string * string))
    (style : list (string * string)) (children : list Element).
#[local] Set Elimination Schemes.

Definition tagOf (e : Element) : string :=
  match e with mkElement t _ _ _ => t end.
Definition attributesOf (e : Element) : list (string * string) :=
  match e with mkElement _ a _ _ => a end.
Definition childrenOf (e : Element) : list Element :=
  match e with mkElement _ _ _ c => c end.

(** [element.setAttribute(name, value)]: an attribute that is present keeps
    its place and takes the new value, a new one is added at the end. *)
Fixpoint set_attribute (name value : string) (attributes : list (string * string))
  : list (string * string) :=
  match attributes with
  | [] => [(name, value)]
  | (n, v) :: rest =>
      if bool_decide (n = name) then (n, value) :: rest
      else (n, v) :: set_attribute name value rest
  end.

Definition setAttribute (name value : string) (e : Element) : Element :=
  match e with
  | mkElement t a st c => mkElement t (set_attribute name value a) st c
  end.

(** [element.getAttribute(name)], [null] when the attribute is absent. *)
Fixpoint get_attribute (name : string) (attributes : list (string * string))
  : option string :=
  match attributes with
  | [] => None
  | (n, v) :: rest =>
      if bool_decide (n = name) then Some v else get_attribute name rest
  end.

Definition getAttribute (name : string) (e : Element) : option string :=
  get_attribute name (attributesOf e).

(** [element.appendChild(child)] *)
Definition appendChild (child : Element) (e : Element) : Element :=
  match e with
  | mkElement t a st c => mkElement t a st (c ++ [child])
  end.

(** [element.style.property = value] *)
Definition setStyle (property value : string) (e : Element) : Element :=
  match e with
  | mkElement t a st c => mkElement t a (set_attribute property value st) c
  end.

(** The value of an attribute in an object literal: a string or a number. *)
Inductive AttributeValue : Type :=
| AString (s : string)
| ANumber (n : number).

Section WithString.

(** The built-in [String(number)] conversion. *)
Variable numberToString : number → string.

(** [String(value)] on an attribute value. *)
Definition String_of (value : AttributeValue) : string :=
  match value with
  | AString s => s
  | ANumber n => numberToString n
  end.

(** [createSvgElement]: the attributes are set in the order of the literal. *)
Definition createSvgElement (tag : string)
  (attributes : list (string * AttributeValue)) : Element :=
  foldl (λ element kv, setAttribute kv.1 (String_of kv.2) element)
    (mkElement tag [] [] []) attributes.

Definition createPointElement (point : RenderedPoint)
  (config : option PointRenderConfig) : Element :=
  let config := default DEFAULT_POINT_CONFIG config in
  let circle :=
    createSvgElement "circle"
      [ ("cx", ANumber (screenX point));
        ("cy", ANumber (screenY point));
        ("r", ANumber (radius config));
        ("fill", AString (color point));
        ("opacity", ANumber (opacity config));
        ("class", AString "scatter-point");
        ("data-file-path", AString (path (rfile point))) ] in
  let circle := setStyle "cursor" "pointer" circle in
  let circle :=
    setStyle "transition" "r 0.15s ease-out, opacity 0.15s ease-out" circle in
  circle.

Definition createPointsLayer (points : list RenderedPoint)
  (config : option PointRenderConfig) : Element :=
  let config := default DEFAULT_POINT_CONFIG config in
  let group := createSvgElement "g" [ ("class", AString "scatter-points") ] in
  foldl (λ group point, appendChild (createPointElement point (Some config)) group)
    group points.

End WithString.

End RenderElements.

Export RenderElements.

(** ** interactions.ts *)
Module Interactions.

(** [createPointIndex]: a later point replaces an earlier one with the same
    file path. *)
Definition createPointIndex (points : list RenderedPoint)
  : gmap string RenderedPoint :=
  foldl (λ index point, <[ path (rfile point) := point ]> index) ∅ points.

Definition findPointFromElement (element : Element)
  (pointIndex : gmap string RenderedPoint) : option RenderedPoint :=
  match getAttribute "data-file-path" element with
  | None => None
  | Some filePath => pointIndex !! filePath
  end.

Section WithString.
Variable numberToString : number → string.

Definition applyHoverEffect (circle : Element)
  (config : option PointRenderConfig) : Element :=
  let config := default DEFAULT_POINT_CONFIG config in
  let circle := setAttribute "r" (numberToString (hoverRadius config)) circle in
  setAttribute "opacity" "1" circle.

Definition removeHoverEffect (circle : Element)
  (config : option PointRenderConfig) : Element :=
  let config := default DEFAULT_POINT_CONFIG config in
  let circle := setAttribute "r" (numberToString (radius config)) circle in
  setAttribute "opacity" (numberToString (opacity config)) circle.

End WithString.

(** The part of a [DOMRect] that [positionTooltip] reads. *)
Record DOMRect : Type := mkRect {
  rleft : number;
  rtop : number;
  rright : number;
  rwidth : number;
  rheight : number
}.

(** [a > b] *)
Definition gtb (a b : number) : bool := ltb b a.

(** The values of [left] and [top] that [positionTooltip] ends with;
    [offsetWidth] and [offsetHeight] are those of the tooltip. *)
Definition positionTooltip_left_top (offsetWidth offsetHeight : number)
  (targetRect containerRect : DOMRect) : number * number :=
  let offset := of_Z 12 in
  let left := (rright targetRect + offset - rleft containerRect)%js in
  let top := (rtop targetRect - rtop containerRect)%js in
  let tooltipWidth := (offsetWidth || of_Z 200)%js in
  let left :=
    if gtb (left + tooltipWidth)%js (rwidth containerRect)
    then (rleft targetRect - tooltipWidth - offset - rleft containerRect)%js
    else left in
  let tooltipHeight := (offsetHeight || of_Z 80)%js in
  let top :=
    if gtb (top + tooltipHeight)%js (rheight containerRect)
    then (rheight containerRect - tooltipHeight - offset)%js
    else top in
  let left := max2 (of_Z 8) left in
  let top := max2 (of_Z 8) top in
  (left, top).

(** [positionTooltip]: the two style properties it writes. *)
Definition positionTooltip (numberToString : number → string)
  (offsetWidth offsetHeight : number) (targetRect containerRect : DOMRect)
  : string * string :=
  let '(left, top) :=
    positionTooltip_left_top offsetWidth offsetHeight targetRect containerRect in
  (numberToString left +:+ "px", numberToString top +:+ "px").

End Interactions.

Export Interactions.

(** ** scatter-view.ts *)
Module ScatterView.

(** What [view.config.get(key)] returns: a string, or anything else. *)
Inductive ConfigValue : Type :=
| CfgString (s : string)
| CfgOther.

(** [readConfig]: a value counts only when it is a string that is not
    empty. *)
Definition readConfig (get : string → ConfigValue) : ScatterConfig :=
  let xAxis := get "xAxis" in
  let yAxis := get "yAxis" in
  let colorBy := get "colorBy" in
  {| xAxis := match xAxis with
              | CfgString s => if bool_decide (0 < String.length s)%nat
                               then Some s else None
              | CfgOther => None
              end;
     yAxis := match yAxis with
              | CfgString s => if bool_decide (0 < String.length s)%nat
                               then Some s else None
              | CfgOther => None
              end;
     colorBy := match colorBy with
                | CfgString s => if bool_decide (0 < String.length s)%nat
                                 then Some s else None
                | CfgOther => None
                end |}.

(** [s.split(sep)] for a separator of one character. *)
Fixpoint split (sep : ascii) (s : string) : list string :=
  match s with
  | EmptyString => [EmptyString]
  | String c rest =>
      if bool_decide (c = sep) then EmptyString :: split sep rest
      else match split sep rest with
           | first :: others => String c first :: others
           | [] => [String c EmptyString]
           end
  end.

(** [parts.join(sep)] *)
Fixpoint join (sep : string) (parts : list string) : string :=
  match parts with
  | [] => EmptyString
  | [part] => part
  | part :: others => part +:+ sep +:+ join sep others
  end.

Definition is_lower (c : ascii) : bool :=
  (97 <=? nat_of_ascii c)%nat && (nat_of_ascii c <=? 122)%nat.
Definition is_upper (c : ascii) : bool :=
  (65 <=? nat_of_ascii c)%nat && (nat_of_ascii c <=? 90)%nat.
Definition is_digit (c : ascii) : bool :=
  (48 <=? nat_of_ascii c)%nat && (nat_of_ascii c <=? 57)%nat.

(** The class [\w]. *)
Definition is_word (c : ascii) : bool :=
  is_lower c || is_upper c || is_digit c || bool_decide (c = "_"%char).

(** [c.toUpperCase()] on a character of the class [\w]. *)
Definition toUpperCase (c : ascii) : ascii :=
  if is_lower c then ascii_of_nat (nat_of_ascii c - 32) else c.

(** [s.replace(/([a-z])([A-Z])/g, "$1 $2")]: matches are taken from left to
    right and do not overlap. *)
Fixpoint replace_camel (s : string) : string :=
  match s with
  | EmptyString => EmptyString
  | String a s' =>
      match s' with
      | EmptyString => String a EmptyString
      | String b rest =>
          if is_lower a && is_upper b
          then String a (String " " (String b (replace_camel rest)))
          else String a (replace_camel s')
      end
  end.

(** [s.replace(/_/g, " ")] *)
Fixpoint replace_underscores (s : string) : string :=
  match s with
  | EmptyString => EmptyString
  | String c rest =>
      String (if bool_decide (c = "_"%char) then " "%char else c)
        (replace_underscores rest)
  end.

(** [s.replace(/^\w/, (c) => c.toUpperCase())] *)
Definition capitalize (s : string) : string :=
  match s with
  | EmptyString => EmptyString
  | String c rest => if is_word c then String (toUpperCase c) rest else s
  end.

Definition propertyIdToLabel (propertyId : option string) : string :=
  match propertyId with
  | None => ""
  | Some propertyId =>
      let parts := split "."%char propertyId in
      let name :=
        if bool_decide (1 < length parts)%nat
        then join "." (drop 1 parts) else propertyId in
      capitalize (replace_underscores (replace_camel name))
  end.

(** [updateViewportFromContainer]: the viewport for a container of the given
    width and height. *)
Definition updateViewportFromContainer (rectWidth rectHeight : number)
  : ViewportDimensions :=
  let width :=
    if gtb rectWidth (of_Z 100) then rectWidth else vwidth DEFAULT_VIEWPORT in
  let height :=
    if gtb rectHeight (of_Z 100) then rectHeight
    else vheight DEFAULT_VIEWPORT in
  {| vwidth := width; vheight := height; margin := margin DEFAULT_VIEWPORT |}.

(** What [onDataUpdated] puts into the container: an empty state with its
    message, or the chart. *)
Inductive ViewOutcome : Type :=
| ShowEmptyState (message : string)
| ShowChart (config : ScatterConfig) (extraction : DataExtractionResult)
    (bounds : PlotBounds).

Section WithBuiltins.
Variable Number : string → number.
Variable numberToString : number → string.

Definition onDataUpdated (get : string → ConfigValue)
  (groupedData : list Group) : ViewOutcome :=
  let config := readConfig get in
  if bool_decide (xAxis config = None) || bool_decide (yAxis config = None)
  then
    ShowEmptyState
      "Configure X and Y axis properties in the view settings to display the scatter plot."
  else
    let entries := flattenGroupedData groupedData in
    let extraction := extractDataFromEntries Number entries config in
    if bool_decide (length (points extraction) = 0%nat) then
      let message :=
        if bool_decide (0 < length (skipped extraction))%nat then
          "No plottable points. "
            +:+ numberToString (of_nat (length (skipped extraction)))
            +:+ " note"
            +:+ (if bool_decide (length (skipped extraction) = 1%nat)
                 then "" else "s")
            +:+ " skipped due to missing or non-numeric values."
        else "No notes match the current filters." in
      ShowEmptyState message
    else
      match calculatePlotBounds (points extraction) None with
      | None => ShowEmptyState "Unable to calculate plot bounds."
      | Some bounds => ShowChart config extraction bounds
      end.

(** The points [renderChart] caches for the interactions, for a container
    of the given width and height. *)
Definition renderedPointsOf (rectWidth rectHeight : number)
  (extraction : DataExtractionResult) (bounds : PlotBounds)
  : list RenderedPoint :=
  let viewport := updateViewportFromContainer rectWidth rectHeight in
  let inner := calculateInnerDimensions viewport in
  let colorMap :=
    createCategoryColorMap (categories extraction) (Some DEFAULT_PALETTE) in
  transformPointsToScreen (points extraction) bounds inner colorMap
    (Some DEFAULT_PALETTE).

End WithBuiltins.

End ScatterView.

Export ScatterView.

(** ** Projections used to state the properties of the batch processor *)
Module Observations.

Definition as_point (result : PointOrSkipped) : option ScatterPoint :=
  match result with
  | IsPoint p => Some p
  | IsSkipped _ => None
  end.

Definition as_skipped (result : PointOrSkipped) : option SkippedEntry :=
  match result with
  | IsPoint _ => None
  | IsSkipped s => Some s
  end.

(** A number that stands for a real. *)
Definition real_of (a : number) : option Qc :=
  match a with
  | Fin q => Some q
  | _ => None
  end.

(** A point whose two coordinates are reals lying within the bounds. *)
Definition within (lo hi : Qc) (a : number) : Prop :=
  ∃ q, a = Fin q ∧ (lo ≤ q)%Qc ∧ (q ≤ hi)%Qc.

End Observations.

Export Observations.

(** ** Stand-ins for the host in the examples of the view *)
Module ViewSamples.

(** A stand-in for the built-in [String(number)], which it follows on the
    integers and on the three values that are not reals; any other real is
    written as a quotient of two integers. *)
Definition sampleToString (a : number) : string :=
  match a with
  | NaN => "NaN"
  | Infinity false => "Infinity"
  | Infinity true => "-Infinity"
  | Fin q =>
      if bool_decide (Qden q = 1%positive) then pretty (Qnum q)
      else pretty (Qnum q) +:+ "/" +:+ pretty (Zpos (Qden q))
  end.

(** A view configured with the properties [effort] and [value] for its two
    axes and with no colour property. *)
Definition sampleGet (key : string) : ConfigValue :=
  if bool_decide (key = "xAxis") then CfgString "effort"
  else if bool_decide (key = "yAxis") then CfgString "value"
  else CfgOther.

(** Three groups, one of them empty: the notes [a] and [c] can be plotted,
    the note [b] cannot. *)
Definition sampleGroups : list Group :=
  [ {| entries := [ entryOf "a" [("effort", text "2"); ("value", text "8")];
                    entryOf "b" [("effort", text "bad"); ("value", text "5")] ] |};
    {| entries := [] |};
    {| entries := [ entryOf "c" [("effort", text "4"); ("value", text "6")] ] |} ].

(** Two groups whose notes cannot be plotted. *)
Definition skippedGroups : list Group :=
  [ {| entries := [ entryOf "b" [("effort", text "bad"); ("value", text "5")] ] |};
    {| entries := [ entryOf "d" [] ] |} ].

(** The bounds of the points (2, 8) and (4, 6) with the default padding. *)
Definition sampleBounds : PlotBounds :=
  {| bx := {| min := Fin (Q2Qc (19 # 10)); max := Fin (Q2Qc (41 # 10)) |};
     by_ := {| min := Fin (Q2Qc (59 # 10)); max := Fin (Q2Qc (81 # 10)) |} |}.

End ViewSamples.

Import ViewSamples.

(** ** JavaScript numbers as they are: binary64

    The code computes in IEEE-754 doubles.  The functions whose results
    depend on rounding, overflow or underflow are embedded a second time
    here, operator for operator, over Rocq's primitive binary64 floats
    ([+], [-], [*], [/] round to nearest, ties to even; [=?] is [===] and
    [<?] is [<] on numbers). *)
Set Warnings "-inexact-float".

Module Double.

(** An array index or a length as a number. *)
Definition of_nat (n : nat) : float :=
  of_uint63 (Uint63Axioms.of_Z (Z.of_nat n)).

(** Truthiness of a number: [0], [-0] and [NaN] are falsy. *)
Definition truthy (a : float) : bool := negb (is_nan a || is_zero a).

(** [a || b] on numbers. *)
Definition or_else (a b : float) : float := if truthy a then a else b.

Definition is_neg_zero (a : float) : bool := is_zero a && get_sign a.
Definition is_pos_zero (a : float) : bool := is_zero a && negb (get_sign a).

(** One step of the loop of [Math.min] in ECMA-262: [-0] replaces a lowest
    value [+0], and a smaller number replaces the lowest value. *)
Definition min_step (lowest number : float) : float :=
  if is_neg_zero number && is_pos_zero lowest then number
  else if (number <? lowest)%float then number else lowest.

Definition max_step (highest number : float) : float :=
  if is_pos_zero number && is_neg_zero highest then number
  else if (highest <? number)%float then number else highest.

(** [Math.min(...values)]: [NaN] as soon as one value is [NaN]; otherwise
    the loop starts from [+Infinity].  [Math.max] starts from
    [-Infinity]. *)
Definition Math_min (values : list float) : float :=
  if existsb is_nan values then nan else foldl min_step infinity values.

Definition Math_max (values : list float) : float :=
  if existsb is_nan values then nan else foldl max_step neg_infinity values.

Record AxisBounds : Type := mkAxis {
  min : float;
  max : float
}.

Record PlotBounds : Type := mkPlot {
  bx : AxisBounds;
  by_ : AxisBounds
}.

Record InnerDimensions : Type := mkInner {
  width : float;
  height : float
}.

Record ScatterPoint : Type := mkPoint {
  x : float;
  y : float;
  category : option string;
  label : string;
  pfile : TFile;
  entry : BasesEntry
}.

Record RenderedPoint : Type := mkRendered {
  rx : float;
  ry : float;
  rcategory : option string;
  rlabel : string;
  rfile : TFile;
  rentry : BasesEntry;
  screenX : float;
  screenY : float;
  color : string
}.

Definition DEFAULT_PADDING : float := 0.05%float.

Definition calculateAxisBounds (values : list float)
  (paddingPercent : option float) : option AxisBounds :=
  let paddingPercent := default DEFAULT_PADDING paddingPercent in
  if bool_decide (length values = 0%nat) then None
  else
    let min := Math_min values in
    let max := Math_max values in
    let range := (max - min)%float in
    let padding :=
      if (range =? 0)%float
      then or_else (abs min * paddingPercent)%float 1%float
      else (range * paddingPercent)%float in
    Some {| min := (min - padding)%float; max := (max + padding)%float |}.

Definition createLinearScale (domainMin domainMax rangeMin rangeMax : float)
  : float → float :=
  let domainSpan := (domainMax - domainMin)%float in
  let rangeSpan := (rangeMax - rangeMin)%float in
  if (domainSpan =? 0)%float
  then λ _, ((rangeMin + rangeMax) / 2)%float
  else λ value,
    let normalized := ((value - domainMin) / domainSpan)%float in
    (rangeMin + normalized * rangeSpan)%float.

Definition createInverseLinearScale
  (domainMin domainMax rangeMin rangeMax : float) : float → float :=
  let domainSpan := (domainMax - domainMin)%float in
  let rangeSpan := (rangeMax - rangeMin)%float in
  if (rangeSpan =? 0)%float
  then λ _, ((domainMin + domainMax) / 2)%float
  else λ screenValue,
    let normalized := ((screenValue - rangeMin) / rangeSpan)%float in
    (domainMin + normalized * domainSpan)%float.

Definition getPointColor (point : ScatterPoint)
  (colorMap : gmap string (option string)) (fallback : option string) : string :=
  let fallback := default (Types.fallback DEFAULT_PALETTE) fallback in
  match category point with
  | None => fallback
  | Some c =>
      match colorMap !! c with
      | Some (Some color) => color
      | _ => fallback
      end
  end.

Definition transformPointsToScreen (points : list ScatterPoint)
  (bounds : PlotBounds) (inner : InnerDimensions)
  (colorMap : gmap string (option string)) (palette : option ColorPalette)
  : list RenderedPoint :=
  let palette := default DEFAULT_PALETTE palette in
  let xScale :=
    createLinearScale (min (bx bounds)) (max (bx bounds)) 0%float (width inner) in
  let yScale :=
    createLinearScale (min (by_ bounds)) (max (by_ bounds)) (height inner) 0%float in
  map (λ point,
         {| rx := x point; ry := y point; rcategory := category point;
            rlabel := label point; rfile := pfile point; rentry := entry point;
            screenX := xScale (x point);
            screenY := yScale (y point);
            color := getPointColor point colorMap (Some (Types.fallback palette)) |})
      points.

Definition DEFAULT_TICK_COUNT : nat := 5.

(** [generateTicks]; [count] is the length of the array to build. *)
Definition generateTicks (bounds : AxisBounds) (count : option nat) : list float :=
  let count := default DEFAULT_TICK_COUNT count in
  let range := (max bounds - min bounds)%float in
  let step := (range / (of_nat count - 1))%float in
  map (λ i, (min bounds + of_nat i * step)%float) (seq 0 count).

(** *** The words of the statements *)

(** The least and the greatest member of a list, by [<=] on numbers. *)
Definition is_minimum (lo : float) (values : list float) : Prop :=
  lo ∈ values ∧ Forall (λ v, (lo <=? v)%float = true) values.

Definition is_maximum (hi : float) (values : list float) : Prop :=
  hi ∈ values ∧ Forall (λ v, (v <=? hi)%float = true) values.

(** The padding as the specification words it: [range * fraction] when the
    range is not zero, otherwise [|min| * fraction], and [1] when that is
    zero (or not a number) as well. *)
Definition spec_padding (lo hi fraction : float) : float :=
  let range := (hi - lo)%float in
  if is_zero range then
    let p := (abs lo * fraction)%float in
    if is_zero p || is_nan p then 1%float else p
  else (range * fraction)%float.

(** The fields of the input point that a rendered point carries. *)
Definition input_fields (r : RenderedPoint) : ScatterPoint :=
  {| x := rx r; y := ry r; category := rcategory r; label := rlabel r;
     pfile := rfile r; entry := rentry r |}.

(** The shape of the specification of a finite double. *)
Definition SFfinite (a : spec_float) : Prop :=
  match a with
  | S754_zero _ | S754_finite _ _ _ => True
  | _ => False
  end.

(** The real number a finite double stands for. *)
Definition real_of (a : float) : option Qc :=
  match Prim2SF a with
  | S754_zero _ => Some 0%Qc
  | S754_finite s m e =>
      Some (Q2Qc (inject_Z (if s then Zneg m else Zpos m) * (2 # 1) ^ e))
  | _ => None
  end.

(** An operation on two doubles is exact when the operands and the result
    are finite and the result stands for the real result: nothing was
    rounded. *)
Definition exact (op : float → float → float) (real_op : Qc → Qc → Qc)
  (a b : float) : bool :=
  match real_of a, real_of b, real_of (op a b) with
  | Some qa, Some qb, Some q => bool_decide (q = real_op qa qb)
  | _, _, _ => false
  end.

(** None of the operations of [createLinearScale(d0, d1, r0, r1)(v)]
    rounds. *)
Definition scale_exact (d0 d1 r0 r1 v : float) : bool :=
  let domainSpan := (d1 - d0)%float in
  let rangeSpan := (r1 - r0)%float in
  let normalized := ((v - d0) / domainSpan)%float in
  exact PrimFloat.sub Qcminus d1 d0 && exact PrimFloat.sub Qcminus r1 r0
  && exact PrimFloat.sub Qcminus v d0
  && exact PrimFloat.div Qcdiv (v - d0)%float domainSpan
  && exact PrimFloat.mul Qcmult normalized rangeSpan
  && exact PrimFloat.add Qcplus r0 (normalized * rangeSpan)%float.

(** None of the operations that give the last of [n] ticks rounds. *)
Definition last_tick_exact (bounds : AxisBounds) (n : nat) : bool :=
  let range := (max bounds - min bounds)%float in
  let step := (range / (of_nat n - 1))%float in
  exact PrimFloat.sub Qcminus (max bounds) (min bounds)
  && bool_decide (real_of (of_nat n - 1)%float
                  = Some (Qc_of_Z (Z.of_nat n) - 1)%Qc)
  && bool_decide (real_of (of_nat (n - 1))
                  = Some (Qc_of_Z (Z.of_nat n) - 1)%Qc)
  && exact PrimFloat.div Qcdiv range (of_nat n - 1)%float
  && exact PrimFloat.mul Qcmult (of_nat (n - 1)) step
  && exact PrimFloat.add Qcplus (min bounds) (of_nat (n - 1) * step)%float.

(** *** Samples *)

Definition mockPoint (x y : float) (category : option string) : ScatterPoint :=
  {| x := x; y := y; category := category; label := "test";
     pfile := Samples.note "test"; entry := Samples.entryOf "test" [] |}.

Definition flatBounds : PlotBounds :=
  {| bx := {| min := 5; max := 5 |}; by_ := {| min := 0; max := 100 |} |}.

Definition squareBounds : PlotBounds :=
  {| bx := {| min := 0; max := 100 |}; by_ := {| min := 0; max := 100 |} |}.

Definition testInner : InnerDimensions := {| width := 500; height := 400 |}.

End Double.

(** * Properties *)

(** ** Point builder: the order of the validation checks *)

(** C1, as the specification words it, fails on the code: with the X field
    configured, the Y field not configured and an empty X property,
    [entryToPoint] reports the missing Y configuration, while the order
    "X configured, X extraction, Y configured, Y extraction" would report
    the failed X extraction. *)
Lemma entryToPoint_spec_order_counterexample :
  let entry := entryOf "a" [] in
  let config := {| xAxis := Some "x"; yAxis := None; colorBy := None |} in
  skip_reason (entryToPoint sampleNumber entry config)
    = Some "Y axis property not configured"
  ∧ first_failure (checks_in_spec_order sampleNumber entry config)
    = Some (reason_empty "x")
  ∧ ¬ (∀ Number entry config,
         skip_reason (entryToPoint Number entry config)
         = first_failure (checks_in_spec_order Number entry config)).
Proof.
  split; [reflexivity|]. split; [reflexivity|].
  intros H.
  specialize (H sampleNumber (entryOf "a" [])
                {| xAxis := Some "x"; yAxis := None; colorBy := None |}).
  vm_compute in H. discriminate H.
Qed.

(** C1, amended: [entryToPoint] checks that the X field is configured, then
    that the Y field is configured, then X extraction, then Y extraction.
    The first failing check gives the reason of the skip.  When the four
    checks pass the result is a point carrying the two extracted values; its
    category is the extracted category, or absent when category extraction
    fails, which never causes a skip. *)
Theorem entryToPoint_check_order (Number : string → number)
    (entry : BasesEntry) (config : ScatterConfig) :
  match first_failure (checks_in_code_order Number entry config) with
  | Some r =>
      entryToPoint Number entry config
      = IsSkipped {| sfile := file entry; reason := r |}
  | None =>
      ∃ xId yId xValue yValue,
        xAxis config = Some xId ∧ yAxis config = Some yId
        ∧ extractNumericValue Number entry xId = NumSuccess xValue
        ∧ extractNumericValue Number entry yId = NumSuccess yValue
        ∧ entryToPoint Number entry config
          = IsPoint {| x := xValue; y := yValue;
                       category :=
                         category_of (extractCategoryValue entry (colorBy config));
                       label := basename (file entry);
                       pfile := file entry; entry := entry |}
  end.
Proof.
  destruct config as [xa ya cb]. unfold entryToPoint, checks_in_code_order.
  cbn [xAxis yAxis colorBy check_configured check_extraction first_failure].
  destruct xa as [xId|]; [|reflexivity].
  destruct ya as [yId|]; [|reflexivity].
  cbn [check_configured check_extraction first_failure].
  destruct (extractNumericValue Number entry xId) as [xValue|rx] eqn:Hx;
    [|reflexivity].
  destruct (extractNumericValue Number entry yId) as [yValue|ry] eqn:Hy;
    [|reflexivity].
  exists xId, yId, xValue, yValue. repeat split; assumption.
Qed.

(** ** Value extractor *)

(** The sequence of host calls of [extractNumericValue], call by call. *)
Lemma extractNumericValue_unfold (Number : string → number)
    (entry : BasesEntry) (propertyId : string) :
  let failed e := NumFailure (reason_failed propertyId e) in
  extractNumericValue Number entry propertyId =
  match getValue entry propertyId with
  | Throws e => failed e
  | Returns value =>
      match isValueEmpty value with
      | Throws e => failed e
      | Returns true => NumFailure (reason_empty propertyId)
      | Returns false =>
          match toString value with
          | Throws e => failed e
          | Returns s =>
              match Number s with
              | NaN =>
                  NumFailure (reason_not_numeric propertyId s)
              | Infinity _ =>
                  NumFailure (reason_not_finite propertyId)
              | Fin q => NumSuccess (Fin q)
              end
          end
      end
  end.
Proof.
  cbv zeta. unfold extractNumericValue, extractNumericValue_body.
  unfold mbind, outcome_bind.
  destruct (getValue entry propertyId) as [value|e0]; cbn [bind try_catch];
    [|reflexivity].
  replace (match value with
           | JNull | JUndefined => Returns true
           | _ => isValueEmpty value
           end) with (isValueEmpty value) by (destruct value; reflexivity).
  destruct (isValueEmpty value) as [[|]|e1]; cbn [bind try_catch];
    try reflexivity.
  destruct (toString value) as [s|e2]; cbn [bind try_catch]; [|reflexivity].
  destruct (Number s); reflexivity.
Qed.



(** ** Bounds calculator *)

(** Equations between concrete values are settled by evaluation. *)
Ltac by_evaluation :=
  match goal with
  | |- ?a = ?b => apply (bool_decide_eq_true_1 (a = b)); vm_compute; reflexivity
  end.

Lemma min2_fin (a b : Qc) :
  min2 (Fin a) (Fin b) = Fin (if decide (b < a)%Qc then b else a).
Proof. unfold min2, ltb. case_bool_decide; case_decide; done. Qed.

Lemma max2_fin (a b : Qc) :
  max2 (Fin a) (Fin b) = Fin (if decide (a < b)%Qc then b else a).
Proof. unfold max2, ltb. case_bool_decide; case_decide; done. Qed.

Lemma Math_min_fin (values : list Qc) :
  values ≠ [] →
  ∃ lo, is_minimum lo values ∧ Math_min (Fin <$> values) = Fin lo.
Proof.
  induction values as [|a rest IH]; [done|]. intros _.
  destruct rest as [|b rest'].
  - exists a. split; [|reflexivity].
    split; [apply list_elem_of_singleton; reflexivity|].
    constructor; [apply Qcle_refl|constructor].
  - destruct IH as (lo & [Hin Hall] & Heq); [done|].
    unfold Math_min in *. cbn [fmap list_fmap foldr] in *.
    change (list_fmap Qc number Fin rest') with (Fin <$> rest') in *.
    rewrite Heq, min2_fin. case_decide as Hlt.
    + exists lo. split; [|reflexivity]. split; [by right|].
      constructor; [by apply Qclt_le_weak|done].
    + exists a. split; [|reflexivity]. split; [by left|].
      apply Qcnot_lt_le in Hlt.
      constructor; [apply Qcle_refl|].
      eapply List.Forall_impl; [|exact Hall]. intros v Hv. cbn in Hv.
      by eapply Qcle_trans.
Qed.

Lemma Math_max_fin (values : list Qc) :
  values ≠ [] →
  ∃ hi, is_maximum hi values ∧ Math_max (Fin <$> values) = Fin hi.
Proof.
  induction values as [|a rest IH]; [done|]. intros _.
  destruct rest as [|b rest'].
  - exists a. split; [|reflexivity].
    split; [apply list_elem_of_singleton; reflexivity|].
    constructor; [apply Qcle_refl|constructor].
  - destruct IH as (hi & [Hin Hall] & Heq); [done|].
    unfold Math_max in *. cbn [fmap list_fmap foldr] in *.
    change (list_fmap Qc number Fin rest') with (Fin <$> rest') in *.
    rewrite Heq, max2_fin. case_decide as Hlt.
    + exists hi. split; [|reflexivity]. split; [by right|].
      constructor; [by apply Qclt_le_weak|done].
    + exists a. split; [|reflexivity]. split; [by left|].
      apply Qcnot_lt_le in Hlt.
      constructor; [apply Qcle_refl|].
      eapply List.Forall_impl; [|exact Hall]. intros v Hv. cbn in Hv.
      by eapply Qcle_trans.
Qed.

Lemma Math_abs_fin (v : Qc) : Math_abs (Fin v) = Fin (absolute v).
Proof. unfold Math_abs, absolute, is_neg. case_bool_decide; case_decide; done. Qed.

Lemma padding_fin (lo hi f : Qc) :
  (if (Fin (hi - lo) === zero)%js
   then (Math_abs (Fin lo) * Fin f || one)%js
   else (Fin (hi - lo) * Fin f)%js) = Fin (spec_padding lo hi f).
Proof.
  unfold spec_padding, strict_eq, zero. rewrite Math_abs_fin.
  cbn [mul]. unfold or_else, truthy, one.
  repeat case_bool_decide; repeat case_decide; done.
Qed.

Lemma calculateAxisBounds_fin (values : list Qc) (f lo hi : Qc) :
  values ≠ [] → 
  Math_min (Fin <$> values) = Fin lo → Math_max (Fin <$> values) = Fin hi →
  calculateAxisBounds (Fin <$> values) (Some (Fin f))
  = Some {| min := Fin (lo - spec_padding lo hi f);
            max := Fin (hi + spec_padding lo hi f) |}.
Proof.
  intros Hne Hlo Hhi. unfold calculateAxisBounds. cbv zeta.
  cbv [default from_option id].
  rewrite length_fmap. case_bool_decide as Hlen.
  { destruct values; [done|discriminate Hlen]. }
  rewrite Hlo, Hhi.
  change (Fin hi - Fin lo)%js with (Fin (hi - lo)).
  rewrite padding_fin. reflexivity.
Qed.

Lemma Qc_of_Z_neq_0 (z : Z) : z ≠ 0%Z → Qc_of_Z z ≠ 0%Qc.
Proof. intros Hz H. apply Hz, (Z2Qc_inj _ 0%Z). by rewrite Z2Qc_inj_0. Qed.

(** The single value 50 of the test suite: [47.5, 52.5]. *)
Example calculateAxisBounds_single_50 :
  calculateAxisBounds [of_Z 50] None
  = Some {| min := Fin (Q2Qc (475 # 10)); max := Fin (Q2Qc (525 # 10)) |}.
Proof. by_evaluation. Qed.

Lemma uniform_minimum (values : list Qc) (v lo : Qc) :
  Forall (λ w, w = v) values → lo ∈ values → lo = v.
Proof.
  intros Hall Hin. apply list_elem_of_In in Hin.
  rewrite List.Forall_forall in Hall. exact (Hall lo Hin).
Qed.

Lemma spec_padding_fallback (v f : Qc) :
  (absolute v * f = 0)%Qc → spec_padding v v f = 1%Qc.
Proof.
  intros Hzero. unfold spec_padding.
  rewrite decide_True by ring. by rewrite decide_True.
Qed.



(** ** Linear scale *)

Lemma strict_eq_fin_zero (a : Qc) : (Fin a === zero)%js = bool_decide (a = 0%Qc).
Proof. reflexivity. Qed.

Lemma two_neq_zero : (two === zero)%js = false.
Proof. reflexivity. Qed.

Lemma span_eq_0 (a b : Qc) : (b - a = 0)%Qc ↔ a = b.
Proof.
  split.
  - intros H. rewrite <- (Qcplus_0_r a), <- H. ring.
  - intros ->. ring.
Qed.

Lemma div_fin (a b : Qc) : b ≠ 0%Qc → (Fin a / Fin b)%js = Fin (a / b).
Proof. intros Hb. unfold div. by rewrite decide_False. Qed.


(** The degenerate scales of the test suite. *)
Example createLinearScale_degenerate_50 :
  createLinearScale (of_Z 50) (of_Z 50) (of_Z 0) (of_Z 100) (of_Z 0) = of_Z 50
  ∧ createInverseLinearScale (of_Z 0) (of_Z 100) (of_Z 50) (of_Z 50) (of_Z 100)
    = of_Z 50.
Proof. split; by_evaluation. Qed.

(** ** Tick generator *)

Lemma count_minus_one_neq_0 (n : nat) :
  (2 ≤ n)%nat → (Qc_of_Z (Z.of_nat n) - 1)%Qc ≠ 0%Qc.
Proof.
  intros Hn H. rewrite <- Z2Qc_inj_1, <- Z2Qc_inj_sub, <- Z2Qc_inj_0 in H.
  apply Z2Qc_inj in H. lia.
Qed.

(** The ticks of the test suite; the count defaults to 5. *)
Example generateTicks_0_100 :
  generateTicks {| min := of_Z 0; max := of_Z 100 |} (Some 5%nat)
  = [of_Z 0; of_Z 25; of_Z 50; of_Z 75; of_Z 100]
  ∧ generateTicks {| min := of_Z 0; max := of_Z 100 |} None
    = generateTicks {| min := of_Z 0; max := of_Z 100 |} (Some 5%nat)
  ∧ generateTicks {| min := of_Z 0; max := of_Z 100 |} (Some 2%nat)
    = [of_Z 0; of_Z 100].
Proof. split; [by_evaluation|]. split; [reflexivity|by_evaluation]. Qed.

(** ** Colour assigner *)

Lemma createCategoryColorMap_loop_other (palette : ColorPalette)
    (categories : list string) (index : nat)
    (colorMap : gmap string (option string)) (c : string) :
  c ∉ categories →
  createCategoryColorMap_loop palette index categories colorMap !! c
  = colorMap !! c.
Proof.
  revert index colorMap.
  induction categories as [|c' rest IH]; intros index colorMap Hnotin;
    [reflexivity|].
  apply not_elem_of_cons in Hnotin as [Hne Hrest].
  cbn [createCategoryColorMap_loop]. rewrite IH by done.
  by apply lookup_insert_ne.
Qed.

Lemma createCategoryColorMap_loop_at (palette : ColorPalette)
    (categories : list string) (index : nat)
    (colorMap : gmap string (option string)) (i : nat) (c : string) :
  NoDup categories →
  categories !! i = Some c →
  createCategoryColorMap_loop palette index categories colorMap !! c
  = Some (array_get (colors palette)
            (remainder (index + i) (length (colors palette)))).
Proof.
  revert index colorMap i.
  induction categories as [|c' rest IH]; intros index colorMap i Hnodup Hi;
    [done|].
  apply list.NoDup_cons in Hnodup as [Hfresh Hnodup].
  cbn [createCategoryColorMap_loop]. destruct i as [|i'].
  - injection Hi as ->.
    rewrite createCategoryColorMap_loop_other by done.
    rewrite lookup_insert_eq, Nat.add_0_r. reflexivity.
  - rewrite (IH _ _ i') by done. by rewrite Nat.add_succ_r.
Qed.

(** C8: for a list of distinct category labels and a palette of [k]
    colours, [createCategoryColorMap] maps the category at index [i] to
    [colors[i mod k]], reusing the colours cyclically; [getPointColor]
    returns the fallback colour for a point whose category is absent or is
    not in the map, also when the map is empty, and the mapped colour
    otherwise. *)
Theorem category_colors (categories : list string) (palette : ColorPalette) :
  NoDup categories →
  let k := length (colors palette) in
  let colorMap := createCategoryColorMap categories (Some palette) in
  (∀ (i : nat) (c : string),
      categories !! i = Some c →
      colorMap !! c = Some (array_get (colors palette) (remainder i k))
      ∧ ((0 < k)%nat →
         ∃ color, colors palette !! (i mod k)%nat = Some color
                  ∧ colorMap !! c = Some (Some color)
                  ∧ ∀ point fallback,
                      category point = Some c →
                      getPointColor point colorMap fallback = color))
  ∧ (∀ c, c ∉ categories → colorMap !! c = None)
  ∧ (∀ point (m : gmap string (option string)) fallback,
      category point = None →
      getPointColor point m (Some fallback) = fallback)
  ∧ (∀ point (m : gmap string (option string)) fallback c,
      category point = Some c → m !! c = None →
      getPointColor point m (Some fallback) = fallback)
  ∧ (∀ point fallback, getPointColor point ∅ (Some fallback) = fallback)
  ∧ (∀ point (m : gmap string (option string)) fallback c color,
      category point = Some c → m !! c = Some (Some color) →
      getPointColor point m fallback = color)
  ∧ (∀ point (m : gmap string (option string)),
      getPointColor point m None
      = getPointColor point m (Some (Types.fallback DEFAULT_PALETTE))).
Proof.
  intros Hnodup. cbv zeta. unfold createCategoryColorMap.
  cbv [default from_option id].
  repeat match goal with |- _ ∧ _ => split end.
  - intros i c Hi. split.
    + by rewrite (createCategoryColorMap_loop_at _ _ _ _ i).
    + intros Hk.
      destruct (lookup_lt_is_Some_2 (colors palette)
                  (i mod length (colors palette))) as [color Hcolor].
      { apply Nat.mod_upper_bound. lia. }
      exists color. split; [done|].
      assert (Hmap : createCategoryColorMap_loop palette 0 categories ∅ !! c
                     = Some (Some color)).
      { rewrite (createCategoryColorMap_loop_at _ _ _ _ i) by done.
        unfold remainder. rewrite bool_decide_eq_false_2 by lia.
        cbn [array_get Nat.add]. by rewrite Hcolor. }
      split; [done|].
      intros point fallback Hcat. unfold getPointColor.
      by rewrite Hcat, Hmap.
  - intros c Hc. by rewrite createCategoryColorMap_loop_other.
  - intros point m fallback Hcat. unfold getPointColor. by rewrite Hcat.
  - intros point m fallback c Hcat Hm. unfold getPointColor.
    by rewrite Hcat, Hm.
  - intros point fallback. unfold getPointColor.
    destruct (category point); [by rewrite lookup_empty|done].
  - intros point m fallback c color Hcat Hm. unfold getPointColor.
    by rewrite Hcat, Hm.
  - reflexivity.
Qed.

Lemma category_colors_witness :
  let palette := {| fallback := "gray"; colors := ["red"; "green"; "blue"] |} in
  let colorMap := createCategoryColorMap ["A"; "B"; "C"; "D"; "E"] (Some palette) in
  colorMap !! "D" = Some (Some "red")
  ∧ colorMap !! "E" = Some (Some "green")
  ∧ colorMap !! "F" = None.
Proof.
  cbv zeta.
  destruct (category_colors ["A"; "B"; "C"; "D"; "E"]
              {| fallback := "gray"; colors := ["red"; "green"; "blue"] |})
    as (Hindex & Hother & _).
  - compute_done.
  - split; [|split].
    + exact (proj1 (Hindex 3%nat "D" eq_refl)).
    + exact (proj1 (Hindex 4%nat "E" eq_refl)).
    + apply Hother. compute_done.
Defined.

(** ** Batch processor: the categories *)

(** The loop invariant: [seen] holds exactly the labels pushed so far. *)
Lemma extractCategories_loop (points : list ScatterPoint)
    (seen : gset string) (acc : list string) :
  (∀ c, c ∈ seen ↔ c ∈ acc) →
  snd (foldl extractCategories_step (seen, acc) points)
  = acc ++ filter (λ d, d ∉ acc) (distinct_first_seen (observed_categories points)).
Proof.
  revert seen acc.
  induction points as [|point rest IH]; intros seen acc Hseen.
  { cbn. by rewrite app_nil_r. }
  cbn [foldl]. unfold observed_categories in *. cbn [omap list_omap].
  unfold extractCategories_step at 2.
  destruct (category point) as [c|]; [|by apply IH].
  cbn [distinct_first_seen]. case_bool_decide as Hin.
  - apply Hseen in Hin. rewrite IH by done.
    rewrite filter_cons_False by (intros Hc; by apply Hc).
    rewrite list_filter_filter. f_equal.
    apply list_filter_iff. intros d. split; [|tauto].
    intros Hd. split; [done|]. intros ->. by apply Hd.
  - assert (Hfresh : c ∉ acc) by (intros Hc; by apply Hin, Hseen).
    rewrite IH.
    + rewrite filter_cons_True by done.
      rewrite <- app_assoc. cbn [app]. do 2 f_equal.
      rewrite list_filter_filter. apply list_filter_iff. intros d.
      rewrite elem_of_app, list_elem_of_singleton. tauto.
    + intros d. rewrite elem_of_union, elem_of_singleton, elem_of_app,
        list_elem_of_singleton, Hseen. tauto.
Qed.

Lemma distinct_first_seen_elem (labels : list string) (c : string) :
  c ∈ distinct_first_seen labels ↔ c ∈ labels.
Proof.
  induction labels as [|a rest IH]; [done|].
  cbn [distinct_first_seen]. rewrite !elem_of_cons, list_elem_of_filter, IH.
  destruct (decide (c = a)); tauto.
Qed.

Lemma distinct_first_seen_NoDup (labels : list string) :
  NoDup (distinct_first_seen labels).
Proof.
  induction labels as [|a rest IH]; [constructor|].
  cbn [distinct_first_seen]. apply NoDup_cons_2.
  - rewrite list_elem_of_filter. tauto.
  - by apply list.NoDup_filter.
Qed.

Lemma distinct_first_seen_sublist (labels : list string) :
  sublist (distinct_first_seen labels) labels.
Proof.
  induction labels as [|a rest IH]; [constructor|].
  cbn [distinct_first_seen]. apply sublist_skip.
  etrans; [apply sublist_filter|done].
Qed.

Lemma filter_eq_app_cons {A : Type} (P : A → Prop) `{∀ x, Decision (P x)}
    (l l1 l2 : list A) (a : A) :
  filter P l = l1 ++ a :: l2 →
  ∃ m1 m2, l = m1 ++ a :: m2 ∧ P a ∧ filter P m1 = l1 ∧ filter P m2 = l2.
Proof.
  revert l1. induction l as [|x l IH]; intros l1 Heq.
  { by destruct l1. }
  rewrite filter_cons in Heq. destruct (decide (P x)) as [HP|HP].
  - destruct l1 as [|y l1]; cbn [app] in Heq.
    + injection Heq as -> Heq. by exists [], l.
    + injection Heq as -> Heq.
      destruct (IH _ Heq) as (m1 & m2 & -> & Ha & <- & <-).
      exists (y :: m1), m2. split; [done|]. split; [done|].
      by rewrite filter_cons_True.
  - destruct (IH _ Heq) as (m1 & m2 & -> & Ha & <- & <-).
    exists (x :: m1), m2. split; [done|]. split; [done|].
    by rewrite filter_cons_False.
Qed.

Lemma distinct_first_seen_order (labels before after : list string)
    (a b : string) :
  distinct_first_seen labels = before ++ a :: after →
  b ∈ after →
  ∃ p q, labels = p ++ a :: q ∧ (a ∉ p) ∧ (b ∉ p) ∧ b ∈ q.
Proof.
  revert before after.
  induction labels as [|c rest IH]; intros before after Heq Hb.
  { by destruct before. }
  cbn [distinct_first_seen] in Heq. destruct before as [|c' before].
  - cbn [app] in Heq. injection Heq as -> <-.
    apply list_elem_of_filter in Hb as [_ Hb].
    rewrite distinct_first_seen_elem in Hb.
    exists [], rest.
    split; [done|]. split; [apply not_elem_of_nil|].
    split; [apply not_elem_of_nil|done].
  - cbn [app] in Heq. injection Heq as <- Heq.
    apply filter_eq_app_cons in Heq
      as (m1 & m2 & Hrest & Ha & <- & <-).
    apply list_elem_of_filter in Hb as [Hbc Hb].
    destruct (IH m1 m2 Hrest Hb) as (p & q & -> & Hap & Hbp & Hbq).
    exists (c :: p), q.
    split; [done|]. rewrite !not_elem_of_cons. done.
Qed.

Lemma filter_not_elem_of_nil (l : list string) :
  filter (λ d, d ∉ @nil string) l = l.
Proof.
  induction l as [|x l IH]; [done|].
  rewrite filter_cons_True by apply not_elem_of_nil. by f_equal.
Qed.

(** C9: [extractCategories] returns the distinct category labels of the
    points in first-seen order: every label of a point occurs exactly once,
    absent categories are left out, the labels keep the order they have
    among the points (nothing is sorted), and a label stands before another
    in the result only if its first occurrence among the points comes before
    every occurrence of the other.  The categories
    C, A, B, A, absent, C yield C, A, B. *)
Theorem extractCategories_first_seen :
  (∀ points : list ScatterPoint,
      let labels := observed_categories points in
      let result := extractCategories points in
      result = distinct_first_seen labels
      ∧ NoDup result
      ∧ sublist result labels
      ∧ (∀ c, c ∈ result
              ↔ ∃ point, point ∈ points ∧ category point = Some c)
      ∧ (∀ before a after b,
           result = before ++ a :: after → b ∈ after →
           ∃ p q, labels = p ++ a :: q ∧ (a ∉ p) ∧ (b ∉ p) ∧ b ∈ q))
  ∧ observed_categories sixPoints = ["C"; "A"; "B"; "A"; "C"]
  ∧ extractCategories sixPoints = ["C"; "A"; "B"].
Proof.
  split; [|split; by vm_compute].
  intros points. cbv zeta.
  assert (Heq : extractCategories points
                = distinct_first_seen (observed_categories points)).
  { unfold extractCategories.
    rewrite (extractCategories_loop points ∅ []) by set_solver.
    cbn [app]. apply filter_not_elem_of_nil. }
  rewrite Heq. split; [done|].
  split; [apply distinct_first_seen_NoDup|].
  split; [apply distinct_first_seen_sublist|].
  split.
  - intros c. rewrite distinct_first_seen_elem. unfold observed_categories.
    by rewrite list_elem_of_omap.
  - intros before a after b. apply distinct_first_seen_order.
Qed.

Lemma extractCategories_first_seen_witness :
  ∃ p q, observed_categories sixPoints = p ++ "C" :: q
         ∧ ("C" ∉ p) ∧ ("B" ∉ p) ∧ "B" ∈ q.
Proof.
  destruct extractCategories_first_seen as [Hall _].
  destruct (Hall sixPoints) as (_ & _ & _ & _ & Horder).
  apply (Horder [] "C" ["A"; "B"] "B").
  - by vm_compute.
  - compute_done.
Defined.

(** ** Screen transformer *)

(** The screen positions of the test suite: (0, 0), (100, 100) and (50, 50)
    on a 500 by 400 plot. *)
Example transformPointsToScreen_test_suite :
  (λ r, (screenX r, screenY r))
    <$> transformPointsToScreen
          [mockPoint 0 0 None; mockPoint 100 100 None; mockPoint 50 50 None]
          squareBounds testInner ∅ None
  = [ (of_Z 0, of_Z 400); (of_Z 500, of_Z 0); (of_Z 250, of_Z 200) ].
Proof. by_evaluation. Qed.

(** ** Batch processor: a run of the whole extraction

    Three records, the second with a non-numeric X value and the third
    without a Y value: one point and two skipped entries, each with its own
    reason. *)
Example extractDataFromEntries_run :
  let entries :=
    [ entryOf "a" [("effort", text "2"); ("value", text "8"); ("status", text "todo")];
      entryOf "b" [("effort", text "bad"); ("value", text "5")];
      entryOf "c" [("effort", text "5"); ("value", JNull)] ] in
  let config :=
    {| xAxis := Some "effort"; yAxis := Some "value"; colorBy := Some "status" |} in
  let result := extractDataFromEntries sampleNumber entries config in
  (λ p, (x p, y p, category p, label p)) <$> points result
    = [ (of_Z 2, of_Z 8, Some "todo", "a") ]
  ∧ (λ s, (basename (sfile s), reason s)) <$> skipped result
    = [ ("b", reason_not_numeric "effort" "bad"); ("c", reason_empty "value") ]
  ∧ categories result = [ "todo" ].
Proof. cbv zeta. split; [by_evaluation|]. split; by vm_compute. Qed.

(** ** The unit tests of the repository, replayed on the embedding *)

Example test_calculateAxisBounds :
  calculateAxisBounds [] None = None
  ∧ calculateAxisBounds [of_Z 0; of_Z 100] None
    = Some {| min := of_Z (-5); max := of_Z 105 |}
  ∧ calculateAxisBounds [of_Z 0; of_Z 100] (Some (Fin (Q2Qc (1 # 10))))
    = Some {| min := of_Z (-10); max := of_Z 110 |}
  ∧ calculateAxisBounds [of_Z 0] None
    = Some {| min := of_Z (-1); max := of_Z 1 |}
  ∧ calculateAxisBounds [of_Z (-100); of_Z (-50)] None
    = Some {| min := Fin (Q2Qc (-1025 # 10)); max := Fin (Q2Qc (-475 # 10)) |}
  ∧ calculateAxisBounds [of_Z 50; of_Z 10; of_Z 90; of_Z 30] None
    = Some {| min := of_Z 6; max := of_Z 94 |}.
Proof. repeat split; by_evaluation. Qed.

Example test_calculatePlotBounds :
  calculatePlotBounds [] None = None
  ∧ calculatePlotBounds [mockPoint 0 0 None; mockPoint 100 200 None] None
    = Some {| bx := {| min := of_Z (-5); max := of_Z 105 |};
              by_ := {| min := of_Z (-10); max := of_Z 210 |} |}
  ∧ calculatePlotBounds [mockPoint 50 100 None] None
    = Some {| bx := {| min := Fin (Q2Qc (475 # 10));
                       max := Fin (Q2Qc (525 # 10)) |};
              by_ := {| min := of_Z 95; max := of_Z 105 |} |}.
Proof. repeat split; by_evaluation. Qed.

Example test_createLinearScale :
  createLinearScale (of_Z 0) (of_Z 100) (of_Z 0) (of_Z 500)
    <$> [of_Z 0; of_Z 50; of_Z 100; of_Z (-20); of_Z 120]
  = [of_Z 0; of_Z 250; of_Z 500; of_Z (-100); of_Z 600]
  ∧ createLinearScale (of_Z 0) (of_Z 100) (of_Z 500) (of_Z 0)
      <$> [of_Z 0; of_Z 50; of_Z 100]
    = [of_Z 500; of_Z 250; of_Z 0]
  ∧ createInverseLinearScale (of_Z 0) (of_Z 100) (of_Z 0) (of_Z 500)
      <$> [of_Z 0; of_Z 250; of_Z 500]
    = [of_Z 0; of_Z 50; of_Z 100].
Proof. repeat split; by_evaluation. Qed.

Example test_createCategoryColorMap :
  createCategoryColorMap [] None = ∅
  ∧ (createCategoryColorMap ["A"; "B"; "C"; "D"; "E"] (Some testPalette) !!.)
      <$> ["A"; "B"; "C"; "D"; "E"]
    = Some <$> (Some <$> ["red"; "green"; "blue"; "red"; "green"])
  ∧ createCategoryColorMap ["A"] None !! "A" = Some (Some "var(--color-blue)").
Proof. repeat split; by vm_compute. Qed.

Example test_getPointColor :
  let colorMap : gmap string (option string) := {[ "category-a" := Some "red" ]} in
  getPointColor (mockPoint 1 1 (Some "category-a")) colorMap None = "red"
  ∧ getPointColor (mockPoint 1 1 None) colorMap (Some "gray") = "gray"
  ∧ getPointColor (mockPoint 1 1 (Some "unknown")) colorMap (Some "gray") = "gray"
  ∧ getPointColor (mockPoint 1 1 None) ∅ None = "var(--text-muted)".
Proof. repeat split; by vm_compute. Qed.

Example test_generateTicks :
  generateTicks {| min := of_Z 10; max := of_Z 50 |} (Some 5%nat)
  = [of_Z 10; of_Z 20; of_Z 30; of_Z 40; of_Z 50]
  ∧ generateTicks {| min := of_Z (-50); max := of_Z 50 |} (Some 5%nat)
    = [of_Z (-50); of_Z (-25); of_Z 0; of_Z 25; of_Z 50]
  ∧ generateTicks {| min := of_Z 0; max := of_Z 100 |} (Some 3%nat)
    = [of_Z 0; of_Z 50; of_Z 100].
Proof. repeat split; by_evaluation. Qed.

(** * Further properties of the code *)

(** ** Value extractor: the categorical variant *)

(** The sequence of host calls of [extractCategoryValue], call by call. *)
Lemma extractCategoryValue_unfold (entry : BasesEntry) (id : string) :
  extractCategoryValue entry (Some id) =
  match getValue entry id with
  | Throws _ => CatFailure
  | Returns value =>
      match isValueEmpty value with
      | Throws _ | Returns true => CatFailure
      | Returns false =>
          match toString value with
          | Throws _ => CatFailure
          | Returns s => CatSuccess s
          end
      end
  end.
Proof.
  unfold extractCategoryValue, mbind, outcome_bind.
  destruct (getValue entry id) as [value|e]; cbn [bind try_catch];
    [|reflexivity].
  replace (match value with
           | JNull | JUndefined => Returns true
           | _ => isValueEmpty value
           end) with (isValueEmpty value) by (destruct value; reflexivity).
  destruct (isValueEmpty value) as [[|]|e]; cbn [bind try_catch];
    try reflexivity.
  destruct (toString value); reflexivity.
Qed.


(** X2: whenever [extractNumericValue] succeeds on a property,
    [extractCategoryValue] succeeds on the same property, with a text that
    [Number] converts to the extracted number. *)
Theorem numeric_success_category_success (Number : string → number)
    (entry : BasesEntry) (propertyId : string) (v : number) :
  extractNumericValue Number entry propertyId = NumSuccess v →
  ∃ s, extractCategoryValue entry (Some propertyId) = CatSuccess s
       ∧ Number s = v.
Proof.
  rewrite extractNumericValue_unfold, extractCategoryValue_unfold. cbv zeta.
  destruct (getValue entry propertyId) as [value|?]; [|discriminate].
  destruct (isValueEmpty value) as [[|]|?]; try discriminate.
  destruct (toString value) as [s|?]; [|discriminate].
  intros Hnum. exists s. split; [reflexivity|].
  destruct (Number s); try discriminate. congruence.
Qed.

Lemma numeric_success_category_success_witness :
  ∃ s, extractCategoryValue (entryOf "a" [("x", text "2.5")]) (Some "x")
       = CatSuccess s
       ∧ sampleNumber s = Fin (Q2Qc (25 # 10)).
Proof.
  apply (numeric_success_category_success sampleNumber
           (entryOf "a" [("x", text "2.5")]) "x").
  reflexivity.
Defined.

(** ** Batch processor *)

Lemma isScatterPoint_as_point (result : PointOrSkipped) :
  isScatterPoint result = true ↔ is_Some (as_point result).
Proof.
  destruct result; cbn; split; try done; by eexists.
Qed.

(** X3: the two type guards are complementary on every result of
    [entryToPoint]: exactly one of them holds, [isScatterPoint] on points
    and [isSkippedEntry] on skipped entries. *)
Theorem type_guards_complementary (result : PointOrSkipped) :
  isScatterPoint result = negb (isSkippedEntry result)
  ∧ (isScatterPoint result = true ↔ ∃ p, result = IsPoint p)
  ∧ (isSkippedEntry result = true ↔ ∃ s, result = IsSkipped s).
Proof.
  destruct result as [p|s]; (split; [reflexivity|]); split; split;
    try discriminate; try (by eexists); by intros [? [=]].
Qed.

Section Batch.
Variable Number : string → number.
Variable config : ScatterConfig.

Lemma extractDataFromEntries_loop (entries : list BasesEntry)
    (ps : list ScatterPoint) (ss : list SkippedEntry) :
  foldl (extractDataFromEntries_step Number config) (ps, ss) entries
  = (ps ++ omap (λ e, as_point (entryToPoint Number e config)) entries,
     ss ++ omap (λ e, as_skipped (entryToPoint Number e config)) entries).
Proof.
  revert ps ss. induction entries as [|e rest IH]; intros ps ss.
  { cbn. by rewrite !app_nil_r. }
  cbn [foldl omap list_omap].
  change (extractDataFromEntries_step Number config (ps, ss) e)
    with (match entryToPoint Number e config with
          | IsPoint p => (ps ++ [p], ss)
          | IsSkipped s => (ps, ss ++ [s])
          end).
  destruct (entryToPoint Number e config); rewrite IH;
    cbn [as_point as_skipped]; by rewrite <- app_assoc.
Qed.

Lemma extractDataFromEntries_points (entries : list BasesEntry) :
  points (extractDataFromEntries Number entries config)
  = omap (λ e, as_point (entryToPoint Number e config)) entries.
Proof.
  unfold extractDataFromEntries. by rewrite extractDataFromEntries_loop.
Qed.

Lemma extractDataFromEntries_skipped (entries : list BasesEntry) :
  skipped (extractDataFromEntries Number entries config)
  = omap (λ e, as_skipped (entryToPoint Number e config)) entries.
Proof.
  unfold extractDataFromEntries. by rewrite extractDataFromEntries_loop.
Qed.

Lemma extractDataFromEntries_categories (entries : list BasesEntry) :
  categories (extractDataFromEntries Number entries config)
  = extractCategories (points (extractDataFromEntries Number entries config)).
Proof.
  unfold extractDataFromEntries. by rewrite extractDataFromEntries_loop.
Qed.

End Batch.

Lemma extractNumericValue_finite (Number : string → number)
    (entry : BasesEntry) (propertyId : string) (v : number) :
  extractNumericValue Number entry propertyId = NumSuccess v →
  is_Some (real_of v).
Proof.
  rewrite extractNumericValue_unfold. cbv zeta.
  destruct (getValue entry propertyId) as [value|?]; [|discriminate].
  destruct (isValueEmpty value) as [[|]|?]; try discriminate.
  destruct (toString value) as [s|?]; [|discriminate].
  destruct (Number s); try discriminate. intros [= <-]. by eexists.
Qed.

Lemma entryToPoint_point (Number : string → number) (e : BasesEntry)
    (config : ScatterConfig) (p : ScatterPoint) :
  entryToPoint Number e config = IsPoint p →
  entry p = e ∧ pfile p = file e ∧ label p = basename (file e)
  ∧ is_Some (real_of (x p)) ∧ is_Some (real_of (y p))
  ∧ category p = category_of (extractCategoryValue e (colorBy config))
  ∧ is_Some (xAxis config) ∧ is_Some (yAxis config).
Proof.
  unfold entryToPoint.
  destruct (xAxis config) as [xId|]; [|discriminate].
  destruct (yAxis config) as [yId|]; [|discriminate].
  destruct (extractNumericValue Number e xId) as [xv|] eqn:Hx; [|discriminate].
  destruct (extractNumericValue Number e yId) as [yv|] eqn:Hy; [|discriminate].
  intros [= <-]. cbn.
  apply extractNumericValue_finite in Hx, Hy.
  repeat split; done.
Qed.

Lemma entryToPoint_skipped (Number : string → number) (e : BasesEntry)
    (config : ScatterConfig) (s : SkippedEntry) :
  entryToPoint Number e config = IsSkipped s → sfile s = file e.
Proof.
  unfold entryToPoint.
  destruct (xAxis config) as [xId|]; [|by intros [= <-]].
  destruct (yAxis config) as [yId|]; [|by intros [= <-]].
  destruct (extractNumericValue Number e xId) as [xv|]; [|by intros [= <-]].
  destruct (extractNumericValue Number e yId) as [yv|]; [|by intros [= <-]].
  discriminate.
Qed.

(** X4: [extractDataFromEntries] partitions the entries without losing or
    reordering any: the points are the results of the entries that give a
    point, in input order, the skipped entries are the results of the
    others, in input order, and the two lists together have as many members
    as there are entries. *)
Theorem extractDataFromEntries_partition (Number : string → number)
    (entries : list BasesEntry) (config : ScatterConfig) :
  let result := extractDataFromEntries Number entries config in
  let outcome_of e := entryToPoint Number e config in
  points result = omap (λ e, as_point (outcome_of e)) entries
  ∧ skipped result = omap (λ e, as_skipped (outcome_of e)) entries
  ∧ (length (points result) + length (skipped result) = length entries)%nat
  ∧ entry <$> points result
    = filter (λ e, isScatterPoint (outcome_of e) = true) entries
  ∧ sfile <$> skipped result
    = file <$> filter (λ e, isSkippedEntry (outcome_of e) = true) entries.
Proof.
  cbv zeta.
  rewrite extractDataFromEntries_points, extractDataFromEntries_skipped.
  split; [reflexivity|]. split; [reflexivity|].
  induction entries as [|e rest (IHlen & IHp & IHs)]; [done|].
  cbn [omap list_omap]. rewrite !filter_cons.
  destruct (entryToPoint Number e config) as [p|s] eqn:He;
    cbn [as_point as_skipped option_bind mbind].
  - apply entryToPoint_point in He as (He & _).
    rewrite decide_True by reflexivity.
    rewrite decide_False by discriminate.
    cbn [fmap list_fmap length]. rewrite IHp, IHs, He. split; [lia|done].
  - apply entryToPoint_skipped in He.
    rewrite decide_False by discriminate.
    rewrite decide_True by reflexivity.
    cbn [fmap list_fmap length]. rewrite IHp, IHs, He. split; [lia|done].
Qed.

Lemma extracted_point_sound (Number : string → number)
    (entries : list BasesEntry) (config : ScatterConfig) (p : ScatterPoint) :
  p ∈ points (extractDataFromEntries Number entries config) →
  entry p ∈ entries
  ∧ entryToPoint Number (entry p) config = IsPoint p
  ∧ pfile p = file (entry p)
  ∧ label p = basename (file (entry p))
  ∧ Number_isFinite (x p) = true
  ∧ Number_isFinite (y p) = true.
Proof.
  rewrite extractDataFromEntries_points, list_elem_of_omap.
  intros (e & He & Hp).
  destruct (entryToPoint Number e config) as [p'|] eqn:Hout; [|discriminate].
  cbn in Hp. injection Hp as ->.
  destruct (entryToPoint_point _ _ _ _ Hout)
    as (<- & Hfile & Hlabel & [qx Hx] & [qy Hy] & _).
  repeat split; try done.
  - by destruct (x p).
  - by destruct (y p).
Qed.

(** X5: every point that [extractDataFromEntries] returns comes from one of
    the entries and is what [entryToPoint] makes of that entry; it carries
    the file and the short name of its entry, and its two coordinates are
    finite numbers. *)
Theorem extractDataFromEntries_points_sound (Number : string → number)
    (entries : list BasesEntry) (config : ScatterConfig) (p : ScatterPoint) :
  p ∈ points (extractDataFromEntries Number entries config) →
  entry p ∈ entries
  ∧ entryToPoint Number (entry p) config = IsPoint p
  ∧ pfile p = file (entry p)
  ∧ label p = basename (file (entry p))
  ∧ Number_isFinite (x p) = true
  ∧ Number_isFinite (y p) = true.
Proof. apply extracted_point_sound. Qed.

Lemma extractDataFromEntries_points_sound_witness :
  let entries :=
    [ entryOf "a" [("effort", text "2"); ("value", text "8")];
      entryOf "b" [("effort", text "bad"); ("value", text "5")] ] in
  let config :=
    {| xAxis := Some "effort"; yAxis := Some "value"; colorBy := None |} in
  let p := {| x := sampleNumber "2"; y := sampleNumber "8"; category := None;
              label := "a"; pfile := note "a";
              entry := entryOf "a" [("effort", text "2"); ("value", text "8")] |} in
  entry p ∈ entries
  ∧ entryToPoint sampleNumber (entry p) config = IsPoint p
  ∧ pfile p = file (entry p)
  ∧ label p = basename (file (entry p))
  ∧ Number_isFinite (x p) = true
  ∧ Number_isFinite (y p) = true.
Proof.
  cbv zeta. apply extractDataFromEntries_points_sound.
  apply list_elem_of_singleton. reflexivity.
Defined.

(** X6: extraction distributes over concatenation, and so over the groups of
    the host: the points (and the skipped entries) of the flattened groups
    are those of each group, one group after the other; flattening keeps
    every entry, and groups without entries add nothing. *)
Theorem extractDataFromEntries_flatten (Number : string → number)
    (config : ScatterConfig) :
  (∀ entries1 entries2,
      points (extractDataFromEntries Number (entries1 ++ entries2) config)
      = points (extractDataFromEntries Number entries1 config)
        ++ points (extractDataFromEntries Number entries2 config)
      ∧ skipped (extractDataFromEntries Number (entries1 ++ entries2) config)
        = skipped (extractDataFromEntries Number entries1 config)
          ++ skipped (extractDataFromEntries Number entries2 config))
  ∧ (∀ groupedData,
      points (extractDataFromEntries Number (flattenGroupedData groupedData) config)
      = groupedData
          ≫= (λ group, points (extractDataFromEntries Number (entries group) config))
      ∧ skipped (extractDataFromEntries Number (flattenGroupedData groupedData) config)
        = groupedData
            ≫= (λ group, skipped (extractDataFromEntries Number (entries group) config))
      ∧ length (flattenGroupedData groupedData)
        = sum_list (length ∘ entries <$> groupedData)
      ∧ ∀ e, e ∈ flattenGroupedData groupedData
             ↔ ∃ group, group ∈ groupedData ∧ e ∈ entries group).
Proof.
  assert (Happ : ∀ entries1 entries2,
      points (extractDataFromEntries Number (entries1 ++ entries2) config)
      = points (extractDataFromEntries Number entries1 config)
        ++ points (extractDataFromEntries Number entries2 config)
      ∧ skipped (extractDataFromEntries Number (entries1 ++ entries2) config)
        = skipped (extractDataFromEntries Number entries1 config)
          ++ skipped (extractDataFromEntries Number entries2 config)).
  { intros entries1 entries2.
    rewrite !extractDataFromEntries_points, !extractDataFromEntries_skipped.
    by rewrite !omap_app. }
  split; [exact Happ|].
  intros groupedData. unfold flattenGroupedData.
  split; [|split; [|split]].
  - induction groupedData as [|g rest IH]; [done|].
    rewrite !bind_cons. by rewrite (proj1 (Happ _ _)), IH.
  - induction groupedData as [|g rest IH]; [done|].
    rewrite !bind_cons. by rewrite (proj2 (Happ _ _)), IH.
  - induction groupedData as [|g rest IH]; [done|].
    rewrite bind_cons, length_app, IH. reflexivity.
  - intros e. rewrite list_elem_of_bind. split.
    + intros (g & He & Hg). by exists g.
    + intros (g & Hg & He). by exists g.
Qed.

Lemma unconfigured_all_skipped (Number : string → number)
    (entries : list BasesEntry) (config : ScatterConfig) :
  xAxis config = None ∨ yAxis config = None →
  let result := extractDataFromEntries Number entries config in
  let why :=
    match xAxis config with
    | None => "X axis property not configured"
    | Some _ => "Y axis property not configured"
    end in
  points result = []
  ∧ categories result = []
  ∧ skipped result = (λ e, {| sfile := file e; reason := why |}) <$> entries.
Proof.
  intros Hconf. cbv zeta.
  rewrite extractDataFromEntries_categories, extractDataFromEntries_points,
    extractDataFromEntries_skipped.
  assert (Hskip : ∀ e, entryToPoint Number e config
            = IsSkipped {| sfile := file e;
                           reason := match xAxis config with
                                     | None => "X axis property not configured"
                                     | Some _ => "Y axis property not configured"
                                     end |}).
  { intros e. unfold entryToPoint. destruct (xAxis config); [|done].
    destruct Hconf as [?| ->]; done. }
  assert (Hpoints : omap (λ e, as_point (entryToPoint Number e config)) entries
                    = []).
  { induction entries as [|e rest IH]; [done|].
    cbn [omap list_omap]. by rewrite Hskip, IH. }
  rewrite Hpoints. split; [done|]. split; [done|].
  clear Hpoints. induction entries as [|e rest IH]; [done|].
  cbn [omap list_omap fmap list_fmap]. rewrite Hskip at 1.
  cbn [as_skipped]. by rewrite IH.
Qed.

(** X7: when the X axis or the Y axis is not configured, no entry gives a
    point: every entry is skipped, in input order, with the reason that
    names the first axis that is not configured, whatever the entries
    hold. *)
Theorem extractDataFromEntries_unconfigured (Number : string → number)
    (entries : list BasesEntry) (config : ScatterConfig) :
  xAxis config = None ∨ yAxis config = None →
  let result := extractDataFromEntries Number entries config in
  let why :=
    match xAxis config with
    | None => "X axis property not configured"
    | Some _ => "Y axis property not configured"
    end in
  points result = []
  ∧ categories result = []
  ∧ skipped result = (λ e, {| sfile := file e; reason := why |}) <$> entries.
Proof. apply unconfigured_all_skipped. Qed.

Lemma extractDataFromEntries_unconfigured_witness :
  let entries := [ entryOf "a" [("effort", text "2")]; entryOf "b" [] ] in
  let config := {| xAxis := Some "effort"; yAxis := None; colorBy := None |} in
  let result := extractDataFromEntries sampleNumber entries config in
  points result = []
  ∧ categories result = []
  ∧ skipped result
    = (λ e, {| sfile := file e; reason := "Y axis property not configured" |})
        <$> entries.
Proof.
  cbv zeta.
  apply (extractDataFromEntries_unconfigured sampleNumber
           [ entryOf "a" [("effort", text "2")]; entryOf "b" [] ]
           {| xAxis := Some "effort"; yAxis := None; colorBy := None |}).
  right. reflexivity.
Defined.

(** X8: without a colour property no point has a category and the list of
    categories is empty. *)
Theorem extractDataFromEntries_no_colorBy (Number : string → number)
    (entries : list BasesEntry) (config : ScatterConfig) :
  colorBy config = None →
  let result := extractDataFromEntries Number entries config in
  Forall (λ p, category p = None) (points result)
  ∧ categories result = [].
Proof.
  intros Hcolor. cbv zeta.
  assert (Hall : Forall (λ p, category p = None)
            (points (extractDataFromEntries Number entries config))).
  { rewrite extractDataFromEntries_points. apply list.Forall_forall.
    intros p (e & _ & Hp)%list_elem_of_omap.
    destruct (entryToPoint Number e config) as [p'|] eqn:Hout; [|discriminate].
    cbn in Hp. injection Hp as ->.
    destruct (entryToPoint_point _ _ _ _ Hout) as (_ & _ & _ & _ & _ & -> & _).
    by rewrite Hcolor. }
  split; [exact Hall|].
  rewrite extractDataFromEntries_categories.
  generalize dependent (points (extractDataFromEntries Number entries config)).
  intros ps Hps. unfold extractCategories.
  assert (Hloop : ∀ st, foldl extractCategories_step st ps = st).
  { induction Hps as [|p rest Hp _ IH]; intros st; [done|].
    cbn [foldl]. unfold extractCategories_step at 2. destruct st.
    by rewrite Hp, IH. }
  by rewrite Hloop.
Qed.

Lemma extractDataFromEntries_no_colorBy_witness :
  let entries := [ entryOf "a" [("effort", text "2"); ("value", text "8")] ] in
  let config :=
    {| xAxis := Some "effort"; yAxis := Some "value"; colorBy := None |} in
  let result := extractDataFromEntries sampleNumber entries config in
  Forall (λ p, category p = None) (points result)
  ∧ categories result = [].
Proof.
  cbv zeta.
  apply (extractDataFromEntries_no_colorBy sampleNumber
           [ entryOf "a" [("effort", text "2"); ("value", text "8")] ]
           {| xAxis := Some "effort"; yAxis := Some "value"; colorBy := None |}).
  reflexivity.
Defined.

(** ** Order reasoning on reals *)

Lemma Qc_eq_Qeq (a b : Qc) : a = b ↔ (this a == this b)%Q.
Proof. split; [by intros ->|apply Qc_is_canon]. Qed.

(** Statements about [Qc] are moved to [Q], where linear and non-linear
    arithmetic is decided. *)
Ltac qc_to_q :=
  repeat match goal with
  | H : @eq Qc _ _ |- _ => apply Qc_eq_Qeq in H
  | H : ¬ @eq Qc _ _ |- _ => rewrite Qc_eq_Qeq in H
  | |- @eq Qc _ _ => apply Qc_eq_Qeq
  | |- ¬ @eq Qc _ _ => rewrite Qc_eq_Qeq
  end;
  unfold Qcle, Qclt, Qcminus, Qcplus, Qcmult, Qcopp, Qc_of_Z, Q2Qc in *;
  cbn [this] in *;
  rewrite ?Qred_correct in *;
  unfold inject_Z in *.

Lemma calculateAxisBounds_None (values : list number)
    (paddingPercent : option number) :
  calculateAxisBounds values paddingPercent = None ↔ values = [].
Proof.
  unfold calculateAxisBounds. cbv zeta. case_bool_decide as Hlen.
  - split; [|done]. intros _. by destruct values.
  - split; [discriminate|]. intros ->. by destruct Hlen.
Qed.

Lemma plot_bounds_None (points : list ScatterPoint)
    (paddingPercent : option number) :
  calculatePlotBounds points paddingPercent = None ↔ points = [].
Proof.
  unfold calculatePlotBounds. cbv zeta. case_bool_decide as Hlen.
  - split; [|done]. intros _. by destruct points.
  - destruct (calculateAxisBounds (map x points) _) as [xb|] eqn:Hx.
    2:{ apply calculateAxisBounds_None in Hx. by destruct points. }
    destruct (calculateAxisBounds (map y points) _) as [yb|] eqn:Hy.
    2:{ apply calculateAxisBounds_None in Hy. by destruct points. }
    split; [discriminate|]. intros ->. by destruct Hlen.
Qed.

(** X10: [calculatePlotBounds] has no result exactly when there are no
    points, and [calculateAxisBounds] exactly when there are no values, for
    every padding and whatever the numbers are, [NaN] and the infinities
    included. *)
Theorem calculatePlotBounds_None (points : list ScatterPoint)
    (paddingPercent : option number) :
  (calculatePlotBounds points paddingPercent = None ↔ points = [])
  ∧ ∀ values, calculateAxisBounds values paddingPercent = None ↔ values = [].
Proof.
  split; [apply plot_bounds_None|].
  intros values. apply calculateAxisBounds_None.
Qed.

(** ** Linear scale, continued *)

(** ** Screen transformer, continued *)

(** ** Point elements and the point index *)

Lemma createPointIndex_loop (points : list RenderedPoint)
    (index : gmap string RenderedPoint) (k : string) :
  foldl (λ index point, <[ path (rfile point) := point ]> index) index points
    !! k
  = match list.last (filter (λ q, path (rfile q) = k) points) with
    | Some q => Some q
    | None => index !! k
    end.
Proof.
  revert index. induction points as [|p rest IH]; intros index; [done|].
  cbn [foldl]. rewrite IH, filter_cons. case_decide as Hk.
  - rewrite last_cons.
    destruct (list.last (filter _ rest)); [done|].
    by rewrite <- Hk, lookup_insert_eq.
  - destruct (list.last (filter _ rest)); [done|].
    by rewrite lookup_insert_ne.
Qed.

Lemma createPointIndex_lookup (points : list RenderedPoint) (k : string) :
  createPointIndex points !! k
  = list.last (filter (λ q, path (rfile q) = k) points).
Proof.
  unfold createPointIndex. rewrite createPointIndex_loop.
  by destruct (list.last _).
Qed.

Lemma createPointElement_path (numberToString : number → string)
    (p : RenderedPoint) (config : option PointRenderConfig) :
  getAttribute "data-file-path" (createPointElement numberToString p config)
  = Some (path (rfile p)).
Proof. reflexivity. Qed.

Lemma filter_path_absent (points : list RenderedPoint) (k : string) :
  k ∉ (λ q, path (rfile q)) <$> points →
  filter (λ q, path (rfile q) = k) points = [].
Proof.
  induction points as [|q rest IH]; intros Hk; [done|].
  cbn [fmap list_fmap] in Hk. apply not_elem_of_cons in Hk as [Hne Hk].
  rewrite filter_cons_False by (intros Heq; by apply Hne). by apply IH.
Qed.

Lemma filter_path_NoDup (points : list RenderedPoint) (p : RenderedPoint) :
  NoDup ((λ q, path (rfile q)) <$> points) → p ∈ points →
  filter (λ q, path (rfile q) = path (rfile p)) points = [p].
Proof.
  induction points as [|q rest IH]; intros Hnd Hp; [by apply elem_of_nil in Hp|].
  cbn [fmap list_fmap] in Hnd. apply list.NoDup_cons in Hnd as [Hq Hnd].
  rewrite filter_cons. apply elem_of_cons in Hp as [->|Hp].
  - rewrite decide_True by done. by rewrite filter_path_absent.
  - rewrite decide_False; [by apply IH|].
    intros Heq. apply Hq. rewrite Heq.
    by apply (list_elem_of_fmap_2 (λ q, path (rfile q))).
Qed.

(** X16: looking up the circle drawn for a point in the index built by
    [createPointIndex] gives the last of the indexed points that has the
    same file path; so it gives the point itself when the file paths of the
    indexed points are distinct, and nothing when no indexed point has that
    path or when the element carries no [data-file-path] attribute. *)
Theorem findPointFromElement_index (numberToString : number → string)
    (points : list RenderedPoint) :
  (∀ p config,
      findPointFromElement (createPointElement numberToString p config)
        (createPointIndex points)
      = list.last (filter (λ q, path (rfile q) = path (rfile p)) points))
  ∧ (NoDup ((λ q, path (rfile q)) <$> points) →
     ∀ p config, p ∈ points →
       findPointFromElement (createPointElement numberToString p config)
         (createPointIndex points) = Some p)
  ∧ (∀ p config,
      path (rfile p) ∉ (λ q, path (rfile q)) <$> points →
      findPointFromElement (createPointElement numberToString p config)
        (createPointIndex points) = None)
  ∧ (∀ element,
      getAttribute "data-file-path" element = None →
      findPointFromElement element (createPointIndex points) = None).
Proof.
  assert (Hfind : ∀ p config,
      findPointFromElement (createPointElement numberToString p config)
        (createPointIndex points)
      = list.last (filter (λ q, path (rfile q) = path (rfile p)) points)).
  { intros p config. unfold findPointFromElement.
    rewrite createPointElement_path. apply createPointIndex_lookup. }
  split; [exact Hfind|]. split; [|split].
  - intros Hnd p config Hp. by rewrite Hfind, filter_path_NoDup.
  - intros p config Hp. by rewrite Hfind, filter_path_absent.
  - intros element Hnone. unfold findPointFromElement. by rewrite Hnone.
Qed.

Lemma createPointsLayer_loop (numberToString : number → string)
    (config : PointRenderConfig) (points : list RenderedPoint)
    (group : Element) :
  foldl (λ group point,
           appendChild (createPointElement numberToString point (Some config))
             group) group points
  = mkElement (tagOf group) (attributesOf group)
      (match group with mkElement _ _ st _ => st end)
      (childrenOf group
       ++ ((λ p, createPointElement numberToString p (Some config)) <$> points)).
Proof.
  revert group. induction points as [|p rest IH]; intros [t a st c].
  { cbn. by rewrite app_nil_r. }
  cbn [foldl]. rewrite IH. cbn. by rewrite <- app_assoc.
Qed.

(** X17: the points layer holds one circle per rendered point, in the order
    of the points, and nothing else; when the file paths of the points are
    distinct, looking up each circle of the layer in the point index gives
    back the points, one by one. *)
Theorem createPointsLayer_round_trip (numberToString : number → string)
    (points : list RenderedPoint) (config : option PointRenderConfig) :
  childrenOf (createPointsLayer numberToString points config)
  = (λ p, createPointElement numberToString p config) <$> points
  ∧ (NoDup ((λ q, path (rfile q)) <$> points) →
     (λ circle, findPointFromElement circle (createPointIndex points))
       <$> childrenOf (createPointsLayer numberToString points config)
     = Some <$> points).
Proof.
  assert (Hchildren :
    childrenOf (createPointsLayer numberToString points config)
    = (λ p, createPointElement numberToString p config) <$> points).
  { unfold createPointsLayer. cbv zeta. rewrite createPointsLayer_loop.
    cbn [childrenOf createSvgElement foldl app].
    apply list_fmap_ext. intros _ p _. by destruct config. }
  split; [exact Hchildren|].
  intros Hnd. rewrite Hchildren, <- list_fmap_compose.
  apply list_fmap_ext. intros _ p Hp%list_elem_of_lookup_2. unfold compose.
  unfold findPointFromElement.
  rewrite createPointElement_path, createPointIndex_lookup.
  by rewrite filter_path_NoDup.
Qed.

(** ** Hover effect *)

Lemma get_set_attribute_eq (name value : string) (attributes : list (string * string)) :
  get_attribute name (set_attribute name value attributes) = Some value.
Proof.
  induction attributes as [|[n v] rest IH]; cbn.
  - by rewrite bool_decide_eq_true_2.
  - case_bool_decide as Hn; cbn.
    + by rewrite bool_decide_eq_true_2.
    + by rewrite bool_decide_eq_false_2.
Qed.

Lemma get_set_attribute_ne (name name' value : string)
    (attributes : list (string * string)) :
  name ≠ name' →
  get_attribute name' (set_attribute name value attributes)
  = get_attribute name' attributes.
Proof.
  intros Hne. induction attributes as [|[n v] rest IH]; cbn.
  - by rewrite bool_decide_eq_false_2.
  - case_bool_decide as Hn; cbn.
    + subst n. by rewrite !bool_decide_eq_false_2.
    + case_bool_decide; [done|exact IH].
Qed.

Lemma getAttribute_setAttribute_ne (name name' value : string) (e : Element) :
  name ≠ name' →
  getAttribute name' (setAttribute name value e) = getAttribute name' e.
Proof. destruct e. apply get_set_attribute_ne. Qed.

Lemma getAttribute_setAttribute_eq (name value : string) (e : Element) :
  getAttribute name (setAttribute name value e) = Some value.
Proof. destruct e. apply get_set_attribute_eq. Qed.

(** X18: removing the hover effect from a circle that [createPointElement]
    made and that was given the hover effect, with one and the same
    configuration, restores the circle exactly.  On any element the two
    effects touch the attributes [r] and [opacity] only; so the file path
    of the circle, and with it the point the index finds for it, is the
    same with and without the hover effect. *)
Theorem hover_effect_round_trip (numberToString : number → string)
    (config : option PointRenderConfig) :
  (∀ p,
      removeHoverEffect numberToString
        (applyHoverEffect numberToString
           (createPointElement numberToString p config) config) config
      = createPointElement numberToString p config)
  ∧ (∀ element name,
      name ≠ "r" → name ≠ "opacity" →
      getAttribute name (applyHoverEffect numberToString element config)
      = getAttribute name element
      ∧ getAttribute name (removeHoverEffect numberToString element config)
        = getAttribute name element)
  ∧ (∀ element,
      getAttribute "r" (applyHoverEffect numberToString element config)
      = Some (numberToString (hoverRadius (default DEFAULT_POINT_CONFIG config)))
      ∧ getAttribute "opacity"
          (applyHoverEffect numberToString element config) = Some "1")
  ∧ (∀ element index,
      findPointFromElement (applyHoverEffect numberToString element config) index
      = findPointFromElement element index).
Proof.
  assert (Hother : ∀ element name,
      name ≠ "r" → name ≠ "opacity" →
      getAttribute name (applyHoverEffect numberToString element config)
      = getAttribute name element
      ∧ getAttribute name (removeHoverEffect numberToString element config)
        = getAttribute name element).
  { intros element name Hr Ho.
    unfold applyHoverEffect, removeHoverEffect. cbv zeta.
    by rewrite !getAttribute_setAttribute_ne. }
  split; [intros p; reflexivity|]. split; [exact Hother|]. split.
  - intros element. unfold applyHoverEffect. cbv zeta. split.
    + rewrite getAttribute_setAttribute_ne by done.
      apply getAttribute_setAttribute_eq.
    + apply getAttribute_setAttribute_eq.
  - intros element index. unfold findPointFromElement.
    by rewrite (proj1 (Hother element "data-file-path" ltac:(done) ltac:(done))).
Qed.

(** ** Tooltip position *)

Lemma or_else_fin (a b : Qc) :
  (Fin a || Fin b)%js = Fin (if decide (a = 0%Qc) then b else a).
Proof. unfold or_else, truthy. case_bool_decide; case_decide; done. Qed.

Lemma gtb_fin (a b : Qc) : gtb (Fin a) (Fin b) = bool_decide (b < a)%Qc.
Proof. reflexivity. Qed.

Lemma positionTooltip_left_top_fin (ow oh tl tt tr cl ct cw ch rw rh : Qc) :
  let w := if decide (ow = 0%Qc) then Qc_of_Z 200 else ow in
  let h := if decide (oh = 0%Qc) then Qc_of_Z 80 else oh in
  let left0 := (tr + Qc_of_Z 12 - cl)%Qc in
  let top0 := (tt - ct)%Qc in
  let left1 :=
    if decide (cw < left0 + w)%Qc then (tl - w - Qc_of_Z 12 - cl)%Qc else left0 in
  let top1 :=
    if decide (ch < top0 + h)%Qc then (ch - h - Qc_of_Z 12)%Qc else top0 in
  positionTooltip_left_top (Fin ow) (Fin oh)
    {| rleft := Fin tl; rtop := Fin tt; rright := Fin tr;
       rwidth := Fin rw; rheight := Fin rh |}
    {| rleft := Fin cl; rtop := Fin ct; rright := Fin (cl + cw);
       rwidth := Fin cw; rheight := Fin ch |}
  = (Fin (if decide (Qc_of_Z 8 < left1)%Qc then left1 else Qc_of_Z 8),
     Fin (if decide (Qc_of_Z 8 < top1)%Qc then top1 else Qc_of_Z 8)).
Proof.
  cbv zeta. unfold positionTooltip_left_top. cbv zeta.
  cbn [rleft rtop rright rwidth rheight]. unfold of_Z.
  rewrite !or_else_fin.
  change (Fin ?a + Fin ?b)%js with (Fin (a + b)).
  change (Fin ?a - Fin ?b)%js with (Fin (a - b)).
  repeat (change (Fin ?a + Fin ?b)%js with (Fin (a + b));
          change (Fin ?a - Fin ?b)%js with (Fin (a - b))).
  rewrite !gtb_fin.
  repeat case_bool_decide; repeat case_decide; try done;
    rewrite ?max2_fin; repeat case_decide; done.
Qed.

(** X19: for real inputs [positionTooltip] never places the tooltip nearer
    than 8 pixels to the left or the top edge of the container. *)
Theorem positionTooltip_at_least_8 (ow oh tl tt tr cl ct cw ch rw rh : Qc) :
  ∃ l t,
    positionTooltip_left_top (Fin ow) (Fin oh)
      {| rleft := Fin tl; rtop := Fin tt; rright := Fin tr;
         rwidth := Fin rw; rheight := Fin rh |}
      {| rleft := Fin cl; rtop := Fin ct; rright := Fin (cl + cw);
         rwidth := Fin cw; rheight := Fin ch |}
    = (Fin l, Fin t)
    ∧ (Qc_of_Z 8 ≤ l)%Qc ∧ (Qc_of_Z 8 ≤ t)%Qc.
Proof.
  rewrite positionTooltip_left_top_fin. cbv zeta.
  eexists _, _. split; [reflexivity|].
  split; case_decide as H8; try apply Qcle_refl; by apply Qclt_le_weak.
Qed.



(** ** The view *)

(** X21: whatever size the container reports, also none at all ([NaN]), the
    inner plot area has a width above 30 and a height above 40 pixels: a
    container side of at most 100 pixels is replaced by the default
    viewport of 800 by 600. *)
Theorem inner_dimensions_positive (rectWidth rectHeight : number) :
  let inner :=
    calculateInnerDimensions
      (updateViewportFromContainer rectWidth rectHeight) in
  ltb (of_Z 30) (width inner) = true
  ∧ ltb (of_Z 40) (height inner) = true
  ∧ (∀ w : Qc, rectWidth = Fin w →
       width inner
       = Fin (if decide (Qc_of_Z 100 < w)%Qc then w - Qc_of_Z 70
              else Qc_of_Z 730))
  ∧ (∀ h : Qc, rectHeight = Fin h →
       height inner
       = Fin (if decide (Qc_of_Z 100 < h)%Qc then h - Qc_of_Z 60
              else Qc_of_Z 540)).
Proof.
  cbv zeta. unfold calculateInnerDimensions, updateViewportFromContainer.
  cbv zeta. cbn [vwidth vheight margin left right top bottom width height
                 DEFAULT_VIEWPORT].
  assert (Hgen : ∀ (a : number) (d m1 m2 : Z) (b : Z),
             (b < d - m1 - m2)%Z → (b + m1 + m2 ≤ 100)%Z →
             ltb (of_Z b)
               ((if gtb a (of_Z 100) then a else of_Z d) - of_Z m1 - of_Z m2)%js
             = true).
  { intros a d m1 m2 b Hd Hb. destruct a as [|[|]|q]; cbn.
    - apply bool_decide_eq_true_2. qc_to_q. unfold Qlt. cbn. lia.
    - apply bool_decide_eq_true_2. qc_to_q. unfold Qlt. cbn. lia.
    - reflexivity.
    - unfold gtb, ltb, of_Z. case_bool_decide as Hq; cbn;
        apply bool_decide_eq_true_2; qc_to_q.
      + unfold Qlt, Qplus, Qopp in *. cbn in *. nia.
      + unfold Qlt. cbn. lia. }
  split; [by apply Hgen|]. split; [by apply Hgen|].
  split.
  - intros w ->. unfold gtb, ltb, of_Z.
    case_bool_decide; case_decide; try done.
    + cbn [sub add neg]. f_equal. qc_to_q. lra.
    + by_evaluation.
  - intros h ->. unfold gtb, ltb, of_Z.
    case_bool_decide; case_decide; try done.
    + cbn [sub add neg]. f_equal. qc_to_q. lra.
    + by_evaluation.
Qed.

Section View.
Variable Number : string → number.
Variable numberToString : number → string.
Variable get : string → ConfigValue.
Variable groupedData : list Group.

Let config := readConfig get.
Let extraction :=
  extractDataFromEntries Number (flattenGroupedData groupedData) config.

(** The three ways [onDataUpdated] can go. *)
Lemma onDataUpdated_cases :
  (xAxis config = None ∨ yAxis config = None) ∧
    onDataUpdated Number numberToString get groupedData
    = ShowEmptyState
        "Configure X and Y axis properties in the view settings to display the scatter plot."
  ∨ (is_Some (xAxis config) ∧ is_Some (yAxis config)
     ∧ points extraction = []
     ∧ onDataUpdated Number numberToString get groupedData
       = ShowEmptyState
           (if bool_decide (0 < length (skipped extraction))%nat then
              "No plottable points. "
                +:+ numberToString (of_nat (length (skipped extraction)))
                +:+ " note"
                +:+ (if bool_decide (length (skipped extraction) = 1%nat)
                     then "" else "s")
                +:+ " skipped due to missing or non-numeric values."
            else "No notes match the current filters."))
  ∨ (is_Some (xAxis config) ∧ is_Some (yAxis config)
     ∧ points extraction ≠ []
     ∧ ∃ bounds,
         calculatePlotBounds (points extraction) None = Some bounds
         ∧ onDataUpdated Number numberToString get groupedData
           = ShowChart config extraction bounds).
Proof.
  unfold onDataUpdated. cbv zeta. fold config. fold extraction.
  destruct (xAxis config) as [xId|] eqn:Hx; [|left; split; [by left|done]].
  destruct (yAxis config) as [yId|] eqn:Hy; [|left; split; [by right|done]].
  rewrite !bool_decide_eq_false_2 by done. cbn [orb]. right.
  case_bool_decide as Hlen.
  - left. do 2 (split; [done|]). split; [|done].
    by destruct (points extraction).
  - right. do 2 (split; [done|]).
    assert (Hne : points extraction ≠ []) by (intros Heq; by rewrite Heq in Hlen).
    split; [done|].
    destruct (calculatePlotBounds (points extraction) None) as [b|] eqn:Hb.
    + by exists b.
    + by apply plot_bounds_None in Hb.
Qed.

End View.

(** X22: [onDataUpdated] never shows the empty state "Unable to calculate
    plot bounds.": bounds are computed for a non-empty list of points only,
    and then they exist. *)
Theorem never_unable_to_calculate_bounds (Number : string → number)
    (numberToString : number → string) (get : string → ConfigValue)
    (groupedData : list Group) :
  onDataUpdated Number numberToString get groupedData
  ≠ ShowEmptyState "Unable to calculate plot bounds.".
Proof.
  destruct (onDataUpdated_cases Number numberToString get groupedData)
    as [[_ ->]|[(_ & _ & _ & ->)|(_ & _ & _ & b & _ & ->)]];
    try discriminate.
  case_bool_decide; discriminate.
Qed.

(** X23: [onDataUpdated] draws the chart exactly when at least one entry of
    the groups gives a point under the configuration read from the view;
    the chart is then drawn for that configuration, for the extraction of
    all the entries, and for the bounds of its points. *)
Theorem chart_iff_some_point (Number : string → number)
    (numberToString : number → string) (get : string → ConfigValue)
    (groupedData : list Group) :
  let config := readConfig get in
  let entries := flattenGroupedData groupedData in
  ((∃ c ex b,
       onDataUpdated Number numberToString get groupedData = ShowChart c ex b)
   ↔ ∃ e, e ∈ entries ∧ isScatterPoint (entryToPoint Number e config) = true)
  ∧ ∀ c ex b,
      onDataUpdated Number numberToString get groupedData = ShowChart c ex b →
      c = config
      ∧ ex = extractDataFromEntries Number entries c
      ∧ points ex ≠ []
      ∧ calculatePlotBounds (points ex) None = Some b.
Proof.
  cbv zeta.
  pose proof (onDataUpdated_cases Number numberToString get groupedData)
    as Hcases. cbv zeta in Hcases.
  assert (Hpoint : points (extractDataFromEntries Number
                             (flattenGroupedData groupedData) (readConfig get))
                   ≠ []
            ↔ ∃ e, e ∈ flattenGroupedData groupedData
                   ∧ isScatterPoint (entryToPoint Number e (readConfig get))
                     = true).
  { rewrite extractDataFromEntries_points. split.
    - intros Hne.
      destruct (omap _ _) as [|p rest] eqn:Hp; [done|].
      assert (Hin : p ∈ omap (λ e, as_point (entryToPoint Number e (readConfig get)))
                      (flattenGroupedData groupedData))
        by (rewrite Hp; left).
      apply list_elem_of_omap in Hin as (e & He & Hout).
      exists e. split; [done|]. apply isScatterPoint_as_point. by eexists.
    - intros (e & He & Hguard) Heq.
      apply isScatterPoint_as_point in Hguard as [p Hp].
      assert (Hin : p ∈ omap (λ e, as_point (entryToPoint Number e (readConfig get)))
                      (flattenGroupedData groupedData))
        by (apply list_elem_of_omap; by exists e).
      rewrite Heq in Hin. by apply elem_of_nil in Hin. }
  split.
  - rewrite <- Hpoint. split.
    + intros (c & ex & b & Hshow).
      destruct Hcases as [[_ H]|[(_ & _ & _ & H)|(_ & _ & Hne & _)]];
        [congruence..|done].
    + intros Hne.
      destruct Hcases as [[Hconf H]|[(_ & _ & Hnil & _)|(_ & _ & _ & b & _ & H)]].
      * exfalso. apply Hne.
        by destruct (unconfigured_all_skipped Number
                       (flattenGroupedData groupedData) (readConfig get) Hconf)
          as [? _].
      * done.
      * by eexists _, _, _.
  - intros c ex b Hshow.
    destruct Hcases as [[_ H]|[(_ & _ & _ & H)|(_ & _ & Hne & b' & Hb & H)]];
      [congruence..|].
    rewrite H in Hshow. by injection Hshow as <- <- <-.
Qed.

(** X24: with both axes configured and no entry that gives a point, the
    empty state tells the two situations apart: without any entry it reads
    "No notes match the current filters.", and otherwise it reports that
    every one of the entries was skipped, "note" in the singular for one
    entry only. *)
Theorem empty_state_message (Number : string → number)
    (numberToString : number → string) (get : string → ConfigValue)
    (groupedData : list Group) :
  let config := readConfig get in
  let entries := flattenGroupedData groupedData in
  is_Some (xAxis config) → is_Some (yAxis config) →
  (∀ e, e ∈ entries → isScatterPoint (entryToPoint Number e config) = false) →
  onDataUpdated Number numberToString get groupedData
  = ShowEmptyState
      (match entries with
       | [] => "No notes match the current filters."
       | _ :: _ =>
           "No plottable points. "
             +:+ numberToString (of_nat (length entries))
             +:+ " note"
             +:+ match entries with [_] => "" | _ => "s" end
             +:+ " skipped due to missing or non-numeric values."
       end).
Proof.
  cbv zeta. intros Hx Hy Hnone.
  assert (Hskipped :
    length (skipped (extractDataFromEntries Number
                       (flattenGroupedData groupedData) (readConfig get)))
    = length (flattenGroupedData groupedData)
    ∧ points (extractDataFromEntries Number
                (flattenGroupedData groupedData) (readConfig get)) = []).
  { rewrite extractDataFromEntries_points, extractDataFromEntries_skipped.
    induction (flattenGroupedData groupedData) as [|e rest IH]; [done|].
    cbn [omap list_omap].
    assert (He : isScatterPoint (entryToPoint Number e (readConfig get)) = false)
      by (apply Hnone; left).
    destruct (entryToPoint Number e (readConfig get)); [discriminate|].
    cbn. destruct IH as [-> ->]; [|done].
    intros e' He'. apply Hnone. by right. }
  destruct Hskipped as [Hlen Hnil].
  destruct (onDataUpdated_cases Number numberToString get groupedData)
    as [[[Hc|Hc] _]|[(_ & _ & _ & ->)|(_ & _ & Hne & _)]]; cbv zeta in *.
  - rewrite Hc in Hx. by destruct Hx.
  - rewrite Hc in Hy. by destruct Hy.
  - rewrite Hlen. destruct (flattenGroupedData groupedData) as [|e [|e' rest]];
      reflexivity.
  - done.
Qed.

Lemma empty_state_message_witness :
  onDataUpdated sampleNumber sampleToString sampleGet skippedGroups
  = ShowEmptyState
      "No plottable points. 2 notes skipped due to missing or non-numeric values.".
Proof.
  apply (empty_state_message sampleNumber sampleToString sampleGet
           skippedGroups).
  - by eexists.
  - by eexists.
  - apply list.Forall_forall. repeat constructor.
Defined.

(** ** Ticks on the screen *)

(** ** Colours of the points *)

Lemma extractCategories_spec (points : list ScatterPoint) :
  extractCategories points = distinct_first_seen (observed_categories points).
Proof.
  unfold extractCategories.
  rewrite (extractCategories_loop points ∅ []) by set_solver.
  cbn [app]. apply filter_not_elem_of_nil.
Qed.

(** X27: when the colour map is built from the categories of the points
    themselves and the palette has at least one colour, every point that
    has a category is drawn in a colour of the palette, namely the colour
    at the index of its category in first-seen order, taken modulo the
    number of colours, and never in the fallback colour by default; a point
    without a category is drawn in the fallback colour. *)
Theorem point_colors_from_palette (points : list ScatterPoint)
    (palette : ColorPalette) (p : ScatterPoint) :
  colors palette ≠ [] → p ∈ points →
  let categories := extractCategories points in
  let colorMap := createCategoryColorMap categories (Some palette) in
  let color := getPointColor p colorMap (Some (fallback palette)) in
  match category p with
  | None => color = fallback palette
  | Some c =>
      ∃ i, categories !! i = Some c
           ∧ colors palette !! (i mod length (colors palette))%nat = Some color
  end.
Proof.
  intros Hcolors Hp. cbv zeta. unfold getPointColor.
  cbn [default from_option id].
  destruct (category p) as [c|] eqn:Hc; [|reflexivity].
  assert (Hin : c ∈ extractCategories points).
  { rewrite extractCategories_spec, distinct_first_seen_elem.
    unfold observed_categories. apply list_elem_of_omap. by exists p. }
  apply list_elem_of_lookup in Hin as [i Hi]. exists i. split; [done|].
  unfold createCategoryColorMap. cbn [default from_option id].
  rewrite (createCategoryColorMap_loop_at _ _ _ _ i c);
    [|rewrite extractCategories_spec; apply distinct_first_seen_NoDup|done].
  unfold remainder.
  rewrite bool_decide_eq_false_2 by (by destruct (colors palette)).
  cbn [array_get Nat.add].
  destruct (lookup_lt_is_Some_2 (colors palette)
              (i mod length (colors palette))) as [col Hcol].
  { apply Nat.mod_upper_bound. by destruct (colors palette). }
  by rewrite Hcol.
Qed.

Lemma point_colors_from_palette_witness :
  ∃ i, extractCategories sixPoints !! i = Some "A"
       ∧ colors testPalette !! (i mod length (colors testPalette))%nat
         = Some "green".
Proof.
  apply (point_colors_from_palette sixPoints testPalette
           (mockPoint 4 4 (Some "A"))).
  - discriminate.
  - do 3 right. left.
Defined.

(** ** Colours, continued *)

(** X28: with distinct colours in the palette and no more categories than
    colours, every category has a colour of its own: two different
    categories are never given the same colour. *)
Theorem distinct_categories_distinct_colors (categories : list string)
    (palette : ColorPalette) (c1 c2 : string) :
  NoDup categories → NoDup (colors palette) →
  (length categories ≤ length (colors palette))%nat →
  c1 ∈ categories → c2 ∈ categories → c1 ≠ c2 →
  ∃ color1 color2,
    createCategoryColorMap categories (Some palette) !! c1
    = Some (Some color1)
    ∧ createCategoryColorMap categories (Some palette) !! c2
      = Some (Some color2)
    ∧ color1 ≠ color2.
Proof.
  intros Hcats Hcols Hlen [i1 Hi1]%list_elem_of_lookup
    [i2 Hi2]%list_elem_of_lookup Hne.
  pose proof (lookup_lt_Some _ _ _ Hi1) as Hlt1.
  pose proof (lookup_lt_Some _ _ _ Hi2) as Hlt2.
  destruct (lookup_lt_is_Some_2 (colors palette) i1) as [col1 Hcol1]; [lia|].
  destruct (lookup_lt_is_Some_2 (colors palette) i2) as [col2 Hcol2]; [lia|].
  assert (Hmap : ∀ i c col, categories !! i = Some c →
            colors palette !! i = Some col →
            createCategoryColorMap categories (Some palette) !! c
            = Some (Some col)).
  { intros i c col Hi Hcol. pose proof (lookup_lt_Some _ _ _ Hi).
    unfold createCategoryColorMap. cbn [default from_option id].
    rewrite (createCategoryColorMap_loop_at _ _ _ _ i c) by done.
    unfold remainder. rewrite bool_decide_eq_false_2 by lia.
    cbn [array_get Nat.add]. rewrite Nat.mod_small by lia. by rewrite Hcol. }
  exists col1, col2. split; [by apply (Hmap i1)|]. split; [by apply (Hmap i2)|].
  intros ->. assert (i1 = i2) as -> by (eapply NoDup_lookup; eauto).
  congruence.
Qed.

Lemma distinct_categories_distinct_colors_witness :
  ∃ color1 color2,
    createCategoryColorMap ["A"; "B"; "C"] (Some testPalette) !! "A"
    = Some (Some color1)
    ∧ createCategoryColorMap ["A"; "B"; "C"] (Some testPalette) !! "C"
      = Some (Some color2)
    ∧ color1 ≠ color2.
Proof.
  apply (distinct_categories_distinct_colors ["A"; "B"; "C"] testPalette
           "A" "C"); compute_done.
Defined.

(** ** Axis labels *)

Lemma split_nonempty (sep : ascii) (s : string) : split sep s ≠ [].
Proof.
  destruct s as [|c rest]; [done|]. cbn. case_bool_decide; [done|].
  by destruct (split sep rest).
Qed.

Lemma join_split (sep : ascii) (s : string) :
  join (String sep EmptyString) (split sep s) = s.
Proof.
  induction s as [|c rest IH]; [done|].
  cbn [split]. pose proof (split_nonempty sep rest) as Hne.
  case_bool_decide as Hc.
  - subst c. destruct (split sep rest) as [|p ps] eqn:Hs; [done|].
    cbn [join] in *. cbn. by rewrite IH.
  - destruct (split sep rest) as [|p ps] eqn:Hs; [done|].
    destruct ps as [|p' ps']; cbn in *; by rewrite <- IH.
Qed.

Lemma split_prefix (sep : ascii) (prefix name : string) :
  (∀ i, String.get i prefix ≠ Some sep) →
  split sep (prefix +:+ String sep name) = prefix :: split sep name.
Proof.
  induction prefix as [|c rest IH]; intros Hsep.
  - change (EmptyString +:+ String sep name) with (String sep name).
    cbn [split]. by rewrite bool_decide_eq_true_2.
  - change (String c rest +:+ String sep name)
      with (String c (rest +:+ String sep name)).
    cbn [split]. rewrite bool_decide_eq_false_2.
    + rewrite IH; [done|]. intros i. apply (Hsep (S i)).
    + intros ->. by apply (Hsep 0%nat).
Qed.

Lemma split_whole (sep : ascii) (s : string) :
  (∀ i, String.get i s ≠ Some sep) → split sep s = [s].
Proof.
  induction s as [|c rest IH]; intros Hsep; [done|].
  cbn [split]. rewrite bool_decide_eq_false_2.
  - rewrite IH; [done|]. intros i. apply (Hsep (S i)).
  - intros ->. by apply (Hsep 0%nat).
Qed.

Lemma toUpperCase_lower (c : ascii) :
  is_lower c = true →
  is_upper (toUpperCase c) = true ∧ is_lower (toUpperCase c) = false
  ∧ toUpperCase c ≠ "_"%char.
Proof.
  destruct c as [[] [] [] [] [] [] [] []]; vm_compute; intros H;
    try discriminate H; (split; [reflexivity|]);
    (split; [reflexivity|discriminate]).
Qed.

Lemma replace_underscores_none (s : string) (i : nat) :
  String.get i (replace_underscores s) ≠ Some "_"%char.
Proof.
  revert i. induction s as [|c rest IH]; intros i; [by destruct i|].
  destruct i as [|i]; cbn; [|apply IH].
  case_bool_decide; congruence.
Qed.

Lemma capitalize_no_underscore (s : string) :
  (∀ i, String.get i s ≠ Some "_"%char) →
  ∀ i, String.get i (capitalize s) ≠ Some "_"%char.
Proof.
  intros Hs i. destruct s as [|c rest]; [done|]. unfold capitalize.
  destruct (is_word c); [|apply Hs].
  destruct i as [|i]; [|apply (Hs (S i))]. cbn.
  unfold toUpperCase. destruct (is_lower c) eqn:Hlow.
  - destruct (toUpperCase_lower c Hlow) as (_ & _ & Hne).
    unfold toUpperCase in Hne. rewrite Hlow in Hne. congruence.
  - apply (Hs 0%nat).
Qed.

Lemma capitalize_first (s : string) (c : ascii) :
  String.get 0 (capitalize s) = Some c → is_lower c = false.
Proof.
  destruct s as [|a rest]; [done|]. unfold capitalize.
  destruct (is_word a) eqn:Hword; cbn; intros [= <-].
  - unfold toUpperCase. destruct (is_lower a) eqn:Hlow; [|done].
    destruct (toUpperCase_lower a Hlow) as (_ & Hnot & _).
    unfold toUpperCase in Hnot. by rewrite Hlow in Hnot.
  - unfold is_word in Hword. by destruct (is_lower a).
Qed.

(** X29: a label made by [propertyIdToLabel] holds no underscore and does
    not begin with a small letter; no property gives the empty label. *)
Theorem propertyIdToLabel_shape (propertyId : option string) :
  (∀ i, String.get i (propertyIdToLabel propertyId) ≠ Some "_"%char)
  ∧ (∀ c, String.get 0 (propertyIdToLabel propertyId) = Some c →
          is_lower c = false)
  ∧ propertyIdToLabel None = "".
Proof.
  split; [|split; [|reflexivity]].
  - destruct propertyId as [id|]; [|by intros []]. cbn [propertyIdToLabel].
    apply capitalize_no_underscore, replace_underscores_none.
  - destruct propertyId as [id|]; [|done]. cbn [propertyIdToLabel].
    apply capitalize_first.
Qed.

(** X30: [propertyIdToLabel] drops the text up to the first dot of the
    identifier and nothing more: the label of [prefix.name], for a prefix
    without a dot, is made from [name] alone, further dots included, and
    the label of an identifier without a dot is made from all of it. *)
Theorem propertyIdToLabel_prefix (prefix name : string) :
  (∀ i, String.get i prefix ≠ Some "."%char) →
  propertyIdToLabel (Some (prefix +:+ "." +:+ name))
  = capitalize (replace_underscores (replace_camel name))
  ∧ propertyIdToLabel (Some prefix)
    = capitalize (replace_underscores (replace_camel prefix)).
Proof.
  intros Hprefix. unfold propertyIdToLabel. cbv zeta. split.
  - change ("." +:+ name) with (String "."%char name).
    rewrite split_prefix by done.
    pose proof (split_nonempty "." name) as Hne.
    rewrite bool_decide_eq_true_2
      by (destruct (split "." name); [done|cbn; lia]).
    rewrite skipn_cons, drop_0. by rewrite join_split.
  - rewrite split_whole by done. by rewrite bool_decide_eq_false_2 by (cbn; lia).
Qed.

Lemma propertyIdToLabel_prefix_witness :
  propertyIdToLabel (Some "formula.computed_score") = "Computed score"
  ∧ propertyIdToLabel (Some "formula") = "Formula".
Proof.
  apply (propertyIdToLabel_prefix "formula" "computed_score").
  intros i. do 8 (destruct i as [|i]; [discriminate|]). discriminate.
Defined.

Example propertyIdToLabel_examples :
  propertyIdToLabel (Some "note.effortLevel") = "Effort Level"
  ∧ propertyIdToLabel (Some "file.name.ext") = "Name.ext"
  ∧ propertyIdToLabel (Some "note.") = ""
  ∧ propertyIdToLabel (Some "_private") = " private"
  ∧ propertyIdToLabel (Some "aBCd") = "A BCd".
Proof. repeat split. Qed.

(** * The code in double arithmetic *)

Import Double.

(** ** Facts of binary64 arithmetic

    Every fact is derived from the specification of the primitive
    operations by the functions of [SpecFloat]. *)

Lemma Prim2SF_zero : Prim2SF 0%float = S754_zero false.
Proof. reflexivity. Qed.

Lemma Prim2SF_one : Prim2SF 1%float = S754_finite false 4503599627370496 (-52).
Proof. reflexivity. Qed.

Lemma is_nan_SF (a : float) :
  is_nan a = match Prim2SF a with S754_nan => true | _ => false end.
Proof.
  unfold is_nan. rewrite FloatAxioms.eqb_spec. unfold SFeqb, SFcompare.
  destruct (Prim2SF a) as [s|s| |s m e]; try reflexivity; try (by destruct s).
  destruct s; rewrite Z.compare_refl, ?Pos.compare_cont_refl; reflexivity.
Qed.

Lemma is_infinity_SF (a : float) :
  is_infinity a = match Prim2SF a with S754_infinity _ => true | _ => false end.
Proof.
  unfold is_infinity. rewrite FloatAxioms.eqb_spec, abs_spec.
  change (Prim2SF infinity) with (S754_infinity false).
  by destruct (Prim2SF a) as [s|s| |s m e].
Qed.

Lemma is_finite_SF (a : float) : is_finite a = true ↔ SFfinite (Prim2SF a).
Proof.
  unfold is_finite. rewrite is_nan_SF, is_infinity_SF.
  destruct (Prim2SF a); cbn; intuition congruence.
Qed.

Lemma is_zero_SF (a : float) :
  is_zero a = match Prim2SF a with S754_zero _ => true | _ => false end.
Proof.
  unfold is_zero. rewrite FloatAxioms.eqb_spec.
  change (Prim2SF PrimFloat.zero) with (S754_zero false). unfold SFeqb, SFcompare.
  destruct (Prim2SF a) as [s|s| |s m e]; try reflexivity; by destruct s.
Qed.

(** Facts about doubles are proved on their specification. *)
Ltac to_spec :=
  rewrite ?is_finite_SF, ?is_zero_SF, ?is_nan_SF, ?FloatAxioms.eqb_spec,
    ?ltb_spec, ?leb_spec, ?add_spec, ?sub_spec, ?mul_spec, ?div_spec,
    ?abs_spec, ?Prim2SF_zero, ?Prim2SF_one in *.

Lemma Zpos_succ (p : positive) : Zpos (PosDef.Pos.succ p) = (Zpos p + 1)%Z.
Proof. exact (Pos2Z.inj_succ p). Qed.

Lemma valid_finite (a : float) (s : bool) (m : positive) (e : Z) :
  Prim2SF a = S754_finite s m e →
  fexp prec emax (Zpos (digits2_pos m) + e) = e ∧ (e ≤ emax - prec)%Z.
Proof.
  intros Ha. pose proof (Prim2SF_valid a) as Hv. rewrite Ha in Hv.
  cbn [valid_binary] in Hv. unfold bounded, canonical_mantissa in Hv.
  apply andb_prop in Hv as [Hc Hb].
  apply Z.eqb_eq in Hc. apply Z.leb_le in Hb. done.
Qed.

Lemma shr_52 (m : positive) :
  SpecFloat.iter_pos shr_1 52
    {| shr_m := Zpos (4503599627370496 * m); shr_r := false; shr_s := false |}
  = {| shr_m := Zpos m; shr_r := false; shr_s := false |}.
Proof. reflexivity. Qed.

Lemma digits_52 (m : positive) :
  Zdigits2 (Zpos (4503599627370496 * m)) = (Zpos (digits2_pos m) + 52)%Z.
Proof.
  cbv [Pos.mul]. cbn [Zdigits2 digits2_pos]. rewrite !Zpos_succ. lia.
Qed.

(** [1 * a] is [a], for every double. *)
Lemma mul_one_l (a : float) : (1 * a)%float = a.
Proof.
  apply Prim2SF_inj. rewrite mul_spec, Prim2SF_one.
  destruct (Prim2SF a) as [s|s| |s m e] eqn:Ha; try reflexivity.
  destruct (valid_finite a s m e Ha) as [Hc Hb].
  unfold SF64mul, SFmul. cbn [xorb].
  unfold binary_round_aux at 1, shr_fexp at 1.
  rewrite digits_52.
  replace (Z.pos (digits2_pos m) + 52 + (-52 + e))%Z
    with (Zpos (digits2_pos m) + e)%Z by lia.
  rewrite Hc. replace (e - (-52 + e))%Z with 52%Z by lia.
  cbn [shr shr_record_of_loc]. rewrite shr_52.
  cbn [shr_m loc_of_shr_record round_nearest_even].
  replace (-52 + e + 52)%Z with e by lia.
  unfold shr_fexp. cbn [Zdigits2 shr_record_of_loc].
  rewrite Hc, Z.sub_diag. cbn [shr shr_m].
  apply Z.leb_le in Hb. by rewrite Hb.
Qed.

Lemma div_eucl_shift (m : positive) :
  Z.div_eucl (Z.shiftl (Zpos m) 53) (Zpos m) = (9007199254740992, 0)%Z.
Proof.
  rewrite Z.shiftl_mul_pow2 by lia.
  pose proof (Z_div_mod (Zpos m * 2 ^ 53) (Zpos m) ltac:(lia)) as Hdiv.
  destruct (Z.div_eucl (Zpos m * 2 ^ 53) (Zpos m)) as [q r].
  destruct Hdiv as [Heq Hr].
  change (2 ^ 53)%Z with 9007199254740992%Z in *.
  assert (q = 9007199254740992%Z) as -> by nia.
  f_equal. lia.
Qed.

(** [a / a] is [1] for a finite [a] that is not zero. *)
Lemma div_diag (a : float) :
  is_finite a = true → is_zero a = false → (a / a)%float = 1%float.
Proof.
  rewrite is_finite_SF, is_zero_SF. intros Hfin Hnz.
  apply Prim2SF_inj. rewrite div_spec, Prim2SF_one.
  destruct (Prim2SF a) as [s|s| |s m e]; try done.
  unfold SF64div, SFdiv, SFdiv_core_binary. cbv zeta.
  rewrite !Z.sub_diag.
  change (Z.min (fexp prec emax 0) 0) with (-53)%Z.
  change (0 - -53)%Z with 53%Z. cbv iota.
  rewrite div_eucl_shift.
  replace (new_location (Zpos m) 0) with loc_Exact
    by (unfold new_location; by destruct (Z.even (Zpos m))).
  by destruct s.
Qed.

(** [a - a] is [+0] for a finite [a]. *)
Lemma sub_diag (a : float) : is_finite a = true → (a - a)%float = 0%float.
Proof.
  rewrite is_finite_SF. intros Ha. apply Prim2SF_inj.
  rewrite sub_spec, Prim2SF_zero.
  destruct (Prim2SF a) as [s|s| |s m e]; try done.
  - by destruct s.
  - unfold SF64sub, SFsub. cbv zeta. by rewrite Z.sub_diag.
Qed.

Lemma sub_finite (a b : float) :
  is_finite (a - b) = true → is_finite a = true ∧ is_finite b = true.
Proof.
  to_spec. unfold SF64sub, SFsub.
  destruct (Prim2SF a) as [sa|sa| |sa ma ea], (Prim2SF b) as [sb|sb| |sb mb eb];
    cbn; try done; by destruct sa, sb.
Qed.

Lemma sub_zero_r (a : float) : (a - 0)%float = a.
Proof.
  apply Prim2SF_inj. to_spec. unfold SF64sub, SFsub.
  destruct (Prim2SF a) as [s|s| |s m e]; try done. by destruct s.
Qed.

Lemma zero_sub_finite (a : float) :
  is_finite a = true → is_finite (0 - a) = true.
Proof.
  to_spec. unfold SF64sub, SFsub.
  destruct (Prim2SF a) as [s|s| |s m e]; try done. by destruct s.
Qed.

Lemma zero_div (z a : float) :
  is_zero z = true → is_finite a = true → is_zero a = false →
  is_zero (z / a) = true.
Proof.
  to_spec. unfold SF64div, SFdiv.
  by destruct (Prim2SF z) as [sz|sz| |sz mz ez],
    (Prim2SF a) as [s|s| |s m e].
Qed.

Lemma zero_mul (z a : float) :
  is_zero z = true → is_finite a = true → is_zero (z * a) = true.
Proof.
  to_spec. unfold SF64mul, SFmul.
  by destruct (Prim2SF z) as [sz|sz| |sz mz ez],
    (Prim2SF a) as [s|s| |s m e].
Qed.

Lemma SFeqb_refl (a : spec_float) : a ≠ S754_nan → SFeqb a a = true.
Proof.
  unfold SFeqb, SFcompare. destruct a as [s|s| |s m e]; try done;
    try (by destruct s).
  intros _. destruct s; rewrite Z.compare_refl, ?Pos.compare_cont_refl; done.
Qed.

(** Adding a zero to a finite double gives a number equal to it. *)
Lemma add_zero (a z : float) :
  is_finite a = true → is_zero z = true → (a + z =? a)%float = true.
Proof.
  to_spec. unfold SF64add, SFadd.
  destruct (Prim2SF a) as [s|s| |s m e], (Prim2SF z) as [sz|sz| |sz mz ez];
    try done; intros _ _.
  - by destruct s, sz.
  - by apply SFeqb_refl.
Qed.

Lemma eqb_finite (a b : float) :
  (a =? b)%float = true → is_finite b = true → is_finite a = true.
Proof.
  to_spec. unfold SFeqb, SFcompare.
  destruct (Prim2SF a) as [sa|sa| |sa ma ea], (Prim2SF b) as [sb|sb| |sb mb eb];
    try done; try (by destruct sa); by destruct sb.
Qed.

Lemma compare_cont_Eq (m1 m2 : positive) :
  PosDef.Pos.compare_cont Eq m1 m2 = (m1 ?= m2)%positive.
Proof. reflexivity. Qed.

Ltac compare_cases :=
  repeat match goal with
  | H : context [PosDef.Pos.compare_cont Eq ?a ?b] |- _ =>
      rewrite compare_cont_Eq in H
  | |- context [PosDef.Pos.compare_cont Eq ?a ?b] => rewrite compare_cont_Eq
  end;
  repeat match goal with
  | H : context [(?a ?= ?b)%Z] |- _ =>
      destruct (Z.compare_spec a b); cbn in H; try discriminate H
  | H : context [(?a ?= ?b)%positive] |- _ =>
      destruct (Pos.compare_spec a b); cbn in H; try discriminate H
  | |- context [(?a ?= ?b)%Z] => destruct (Z.compare_spec a b); cbn
  | |- context [(?a ?= ?b)%positive] => destruct (Pos.compare_spec a b); cbn
  end;
  try reflexivity; try lia.

(** The difference of two equal finite doubles is a zero. *)
Lemma sub_eqb_zero (a b : float) :
  (a =? b)%float = true → is_finite b = true → is_zero (a - b) = true.
Proof.
  to_spec. unfold SFeqb, SFcompare, SF64sub, SFsub.
  destruct (Prim2SF a) as [sa|sa| |sa ma ea], (Prim2SF b) as [sb|sb| |sb mb eb];
    try done; try (by destruct sa); try (by destruct sb).
  - by destruct sa, sb.
  - intros Heq _. destruct sa, sb; try done; compare_cases; subst;
      cbv zeta; by rewrite Z.sub_diag.
Qed.

(** [0 + (a - 0)] equals [a], and [a + (0 - a)] is [+0], for a finite
    [a]. *)
Lemma zero_add_sub (a : float) :
  is_finite a = true → (0 + (a - 0) =? a)%float = true.
Proof.
  rewrite sub_zero_r. to_spec. unfold SF64add, SFadd.
  destruct (Prim2SF a) as [s|s| |s m e]; try done; intros _.
  - by destruct s.
  - by apply SFeqb_refl.
Qed.

Lemma add_zero_sub (a : float) :
  is_finite a = true → (a + (0 - a))%float = 0%float.
Proof.
  intros Ha. apply Prim2SF_inj. to_spec.
  unfold SF64add, SFadd, SF64sub, SFsub.
  destruct (Prim2SF a) as [s|s| |s m e]; try done.
  - by destruct s.
  - cbv zeta. destruct s; cbn [negb cond_Zopp];
      [rewrite Z.add_opp_diag_l|rewrite Z.add_opp_diag_r]; reflexivity.
Qed.

(** ** The order of doubles *)

Lemma SFleb_trans (a b c : spec_float) :
  SFleb a b = true → SFleb b c = true → SFleb a c = true.
Proof.
  unfold SFleb, SFcompare.
  destruct a as [sa|sa| |sa ma ea], b as [sb|sb| |sb mb eb],
    c as [sc|sc| |sc mc ec]; try (intros; discriminate);
    try destruct sa; try destruct sb; try destruct sc;
    try (intros; reflexivity); try (intros; discriminate);
    intros H1 H2; compare_cases.
Qed.

Lemma SFleb_total (a b : spec_float) :
  a ≠ S754_nan → b ≠ S754_nan → SFltb a b = false → SFleb b a = true.
Proof.
  unfold SFleb, SFltb, SFcompare.
  destruct a as [sa|sa| |sa ma ea], b as [sb|sb| |sb mb eb]; try done;
    try destruct sa; try destruct sb; try done; intros _ _ H; compare_cases.
Qed.

Lemma not_nan_SF (a : float) : is_nan a = false ↔ Prim2SF a ≠ S754_nan.
Proof. rewrite is_nan_SF. by destruct (Prim2SF a). Qed.

Lemma leb_trans (a b c : float) :
  (a <=? b)%float = true → (b <=? c)%float = true → (a <=? c)%float = true.
Proof. rewrite !leb_spec. apply SFleb_trans. Qed.

Lemma ltb_leb (a b : float) :
  (a <? b)%float = true → (a <=? b)%float = true.
Proof.
  rewrite ltb_spec, leb_spec. unfold SFltb, SFleb.
  by destruct (SFcompare _ _) as [[]|].
Qed.

Lemma leb_total (a b : float) :
  is_nan a = false → is_nan b = false →
  (a <? b)%float = false → (b <=? a)%float = true.
Proof. rewrite !not_nan_SF, ltb_spec, leb_spec. apply SFleb_total. Qed.

Lemma leb_refl (a : float) : is_nan a = false → (a <=? a)%float = true.
Proof.
  rewrite not_nan_SF, leb_spec. intros Ha.
  pose proof (SFeqb_refl _ Ha) as Heq. unfold SFeqb, SFleb in *.
  by destruct (SFcompare _ _) as [[]|].
Qed.

Lemma zeros_leb (a b : float) :
  is_zero a = true → is_zero b = true → (a <=? b)%float = true.
Proof.
  rewrite !is_zero_SF, leb_spec.
  by destruct (Prim2SF a) as [sa|sa| |sa ma ea],
    (Prim2SF b) as [sb|sb| |sb mb eb].
Qed.

Lemma leb_infinity (a : float) :
  (infinity <=? a)%float = true → a = infinity.
Proof.
  rewrite leb_spec. change (Prim2SF infinity) with (S754_infinity false).
  intros H. apply Prim2SF_inj.
  change (Prim2SF infinity) with (S754_infinity false).
  destruct (Prim2SF a) as [s|s| |s m e]; try done. by destruct s.
Qed.

Lemma leb_neg_infinity (a : float) :
  (a <=? neg_infinity)%float = true → a = neg_infinity.
Proof.
  rewrite leb_spec. change (Prim2SF neg_infinity) with (S754_infinity true).
  intros H. apply Prim2SF_inj.
  change (Prim2SF neg_infinity) with (S754_infinity true).
  destruct (Prim2SF a) as [s|s| |s m e]; try done; by destruct s.
Qed.

Lemma nan_unique (a : float) : is_nan a = true → a = nan.
Proof.
  rewrite is_nan_SF. intros Ha. apply Prim2SF_inj.
  change (Prim2SF nan) with S754_nan. by destruct (Prim2SF a).
Qed.

(** ** [Math.min] and [Math.max] *)

Lemma min_step_spec (lowest number : float) :
  is_nan lowest = false → is_nan number = false →
  (min_step lowest number = lowest ∨ min_step lowest number = number)
  ∧ (min_step lowest number <=? lowest)%float = true
  ∧ (min_step lowest number <=? number)%float = true.
Proof.
  intros Hl Hn. unfold min_step.
  destruct (is_neg_zero number && is_pos_zero lowest) eqn:Hz.
  - apply andb_prop in Hz as [H1 H2].
    apply andb_prop in H1 as [H1 _]. apply andb_prop in H2 as [H2 _].
    split; [by right|]. split; [by apply zeros_leb|by apply leb_refl].
  - destruct (number <? lowest)%float eqn:Hlt.
    + split; [by right|]. split; [by apply ltb_leb|by apply leb_refl].
    + split; [by left|]. split; [by apply leb_refl|by apply leb_total].
Qed.

Lemma max_step_spec (highest number : float) :
  is_nan highest = false → is_nan number = false →
  (max_step highest number = highest ∨ max_step highest number = number)
  ∧ (highest <=? max_step highest number)%float = true
  ∧ (number <=? max_step highest number)%float = true.
Proof.
  intros Hh Hn. unfold max_step.
  destruct (is_pos_zero number && is_neg_zero highest) eqn:Hz.
  - apply andb_prop in Hz as [H1 H2].
    apply andb_prop in H1 as [H1 _]. apply andb_prop in H2 as [H2 _].
    split; [by right|]. split; [by apply zeros_leb|by apply leb_refl].
  - destruct (highest <? number)%float eqn:Hlt.
    + split; [by right|]. split; [by apply ltb_leb|by apply leb_refl].
    + split; [by left|]. split; [by apply leb_refl|by apply leb_total].
Qed.

Lemma foldl_min_step (values : list float) (lowest : float) :
  is_nan lowest = false → Forall (λ v, is_nan v = false) values →
  let r := foldl min_step lowest values in
  is_nan r = false ∧ r ∈ lowest :: values ∧ (r <=? lowest)%float = true
  ∧ Forall (λ v, (r <=? v)%float = true) values.
Proof.
  revert lowest. induction values as [|v rest IH]; intros lowest Hl Hall.
  { cbn. split; [done|]. split; [left|]. split; [by apply leb_refl|done]. }
  apply list.Forall_cons in Hall as [Hv Hrest]. cbn [foldl].
  destruct (min_step_spec lowest v Hl Hv) as (Hin & Hle1 & Hle2).
  assert (Hnan : is_nan (min_step lowest v) = false)
    by (destruct Hin as [-> | ->]; done).
  destruct (IH (min_step lowest v) Hnan Hrest) as (Hr & Hmem & Hle & Hrestle).
  cbv zeta. split; [done|]. split; [|split].
  - apply elem_of_cons in Hmem as [->|Hmem].
    + destruct Hin as [-> | ->]; [left|right; left].
    + right. by right.
  - by eapply leb_trans.
  - constructor; [by eapply leb_trans|done].
Qed.

Lemma foldl_max_step (values : list float) (highest : float) :
  is_nan highest = false → Forall (λ v, is_nan v = false) values →
  let r := foldl max_step highest values in
  is_nan r = false ∧ r ∈ highest :: values ∧ (highest <=? r)%float = true
  ∧ Forall (λ v, (v <=? r)%float = true) values.
Proof.
  revert highest. induction values as [|v rest IH]; intros highest Hh Hall.
  { cbn. split; [done|]. split; [left|]. split; [by apply leb_refl|done]. }
  apply list.Forall_cons in Hall as [Hv Hrest]. cbn [foldl].
  destruct (max_step_spec highest v Hh Hv) as (Hin & Hle1 & Hle2).
  assert (Hnan : is_nan (max_step highest v) = false)
    by (destruct Hin as [-> | ->]; done).
  destruct (IH (max_step highest v) Hnan Hrest) as (Hr & Hmem & Hle & Hrestle).
  cbv zeta. split; [done|]. split; [|split].
  - apply elem_of_cons in Hmem as [->|Hmem].
    + destruct Hin as [-> | ->]; [left|right; left].
    + right. by right.
  - by eapply leb_trans.
  - constructor; [by eapply leb_trans|done].
Qed.

Lemma existsb_is_nan (values : list float) :
  Forall (λ v, is_nan v = false) values → existsb is_nan values = false.
Proof. induction 1 as [|v rest Hv _ IH]; [done|]. cbn. by rewrite Hv, IH. Qed.

Lemma Math_min_least (values : list float) :
  values ≠ [] → Forall (λ v, is_nan v = false) values →
  is_minimum (Math_min values) values.
Proof.
  intros Hne Hall. unfold Math_min. rewrite existsb_is_nan by done.
  destruct (foldl_min_step values infinity eq_refl Hall)
    as (_ & Hmem & _ & Hle).
  split; [|done].
  apply elem_of_cons in Hmem as [Heq|Hmem]; [|done].
  destruct values as [|v rest]; [done|].
  apply list.Forall_cons in Hle as [Hv _]. rewrite Heq in Hv.
  apply leb_infinity in Hv. rewrite Heq, <- Hv. left.
Qed.

Lemma Math_max_greatest (values : list float) :
  values ≠ [] → Forall (λ v, is_nan v = false) values →
  is_maximum (Math_max values) values.
Proof.
  intros Hne Hall. unfold Math_max. rewrite existsb_is_nan by done.
  destruct (foldl_max_step values neg_infinity eq_refl Hall)
    as (_ & Hmem & _ & Hle).
  split; [|done].
  apply elem_of_cons in Hmem as [Heq|Hmem]; [|done].
  destruct values as [|v rest]; [done|].
  apply list.Forall_cons in Hle as [Hv _]. rewrite Heq in Hv.
  apply leb_neg_infinity in Hv. rewrite Heq, <- Hv. left.
Qed.

(** [Math.min] and [Math.max] of a single number are that number. *)
Lemma Math_min_single (v : float) : Math_min [v] = v.
Proof.
  destruct (is_nan v) eqn:Hnan.
  - unfold Math_min. cbn. rewrite Hnan. cbn. symmetry. by apply nan_unique.
  - destruct (Math_min_least [v] ltac:(done)) as [Hin _]; [by constructor|].
    by apply list_elem_of_singleton in Hin.
Qed.

Lemma Math_max_single (v : float) : Math_max [v] = v.
Proof.
  destruct (is_nan v) eqn:Hnan.
  - unfold Math_max. cbn. rewrite Hnan. cbn. symmetry. by apply nan_unique.
  - destruct (Math_max_greatest [v] ltac:(done)) as [Hin _]; [by constructor|].
    by apply list_elem_of_singleton in Hin.
Qed.

(** ** Bounds calculator *)

Lemma padding_spec (lo hi fraction : float) :
  (if (hi - lo =? 0)%float
   then or_else (abs lo * fraction)%float 1%float
   else ((hi - lo) * fraction)%float)
  = spec_padding lo hi fraction.
Proof.
  unfold spec_padding, or_else, truthy. cbv zeta.
  change (hi - lo =? 0)%float with (is_zero (hi - lo)).
  destruct (is_zero (hi - lo)); [|reflexivity].
  rewrite orb_comm. by destruct (is_zero _ || is_nan _).
Qed.

Lemma calculateAxisBounds_general (values : list float) (fraction : float) :
  values ≠ [] →
  calculateAxisBounds values (Some fraction)
  = Some {| min := (Math_min values
                    - spec_padding (Math_min values) (Math_max values) fraction)%float;
            max := (Math_max values
                    + spec_padding (Math_min values) (Math_max values) fraction)%float |}.
Proof.
  intros Hne. unfold calculateAxisBounds. cbv zeta.
  cbv [default from_option id].
  rewrite bool_decide_eq_false_2 by (by destruct values).
  by rewrite padding_spec.
Qed.

Lemma calculateAxisBounds_single (v fraction : float) :
  is_finite v = true →
  calculateAxisBounds [v] (Some fraction)
  = Some (if truthy (abs v * fraction)%float
          then {| min := (v - abs v * fraction)%float;
                  max := (v + abs v * fraction)%float |}
          else {| min := (v - 1)%float; max := (v + 1)%float |}).
Proof.
  intros Hv. rewrite calculateAxisBounds_general by done.
  rewrite Math_min_single, Math_max_single.
  unfold spec_padding. cbv zeta. rewrite sub_diag by done.
  change (is_zero 0) with true. cbv iota. unfold truthy.
  rewrite orb_comm. by destruct (is_nan _ || is_zero _).
Qed.

(** C2: on the values the code accepts in double arithmetic a single value
    [v ≠ 0] does not always yield [v - 0.05|v|, v + 0.05|v|]: for the
    least positive double the product [|v| * 0.05] is rounded to [0], the
    fallback padding of [1] applies, and the bounds are [-1, 1]. *)
Lemma calculateAxisBounds_tiny_counterexample :
  let v := 5e-324%float in
  is_finite v = true
  ∧ (v =? 0)%float = false
  ∧ calculateAxisBounds [v] None = Some {| min := -1; max := 1 |}
  ∧ (v - 0.05 * abs v =? -1)%float = false
  ∧ (v + 0.05 * abs v =? 1)%float = false.
Proof. repeat split. Qed.

(** C2, amended: [calculateAxisBounds] returns nothing for the empty list.
    For a non-empty list it returns [min(values) - padding] and
    [max(values) + padding], computed in doubles, where the padding is
    [range * fraction] when the range is not zero and otherwise
    [|min(values)| * fraction], or [1] when that product is zero (or not a
    number); [min(values)] and [max(values)] are the least and the greatest
    value when no value is [NaN].  The default fraction is 0.05.  A single
    finite value [v] yields [v - |v| * fraction, v + |v| * fraction] when the
    product [|v| * fraction] is not zero, and [v - 1, v + 1] when it is; the
    single value [0] yields [-1, 1]. *)
Theorem calculateAxisBounds_padding :
  (∀ paddingPercent, calculateAxisBounds [] paddingPercent = None)
  ∧ (∀ values,
      calculateAxisBounds values None
      = calculateAxisBounds values (Some 0.05%float))
  ∧ (∀ values fraction,
      values ≠ [] →
      calculateAxisBounds values (Some fraction)
      = Some {| min := (Math_min values
                        - spec_padding (Math_min values) (Math_max values)
                            fraction)%float;
                max := (Math_max values
                        + spec_padding (Math_min values) (Math_max values)
                            fraction)%float |})
  ∧ (∀ values,
      values ≠ [] → Forall (λ v, is_nan v = false) values →
      is_minimum (Math_min values) values
      ∧ is_maximum (Math_max values) values)
  ∧ (∀ v fraction,
      is_finite v = true →
      calculateAxisBounds [v] (Some fraction)
      = Some (if is_zero (abs v * fraction) || is_nan (abs v * fraction)
              then {| min := (v - 1)%float; max := (v + 1)%float |}
              else {| min := (v - abs v * fraction)%float;
                      max := (v + abs v * fraction)%float |}))
  ∧ calculateAxisBounds [0%float] None = Some {| min := -1; max := 1 |}.
Proof.
  split; [reflexivity|]. split; [reflexivity|].
  split; [apply calculateAxisBounds_general|].
  split.
  { intros values Hne Hall.
    split; [by apply Math_min_least|by apply Math_max_greatest]. }
  split; [|reflexivity].
  intros v fraction Hv. rewrite calculateAxisBounds_single by done.
  unfold truthy. rewrite orb_comm.
  by destruct (is_zero (abs v * fraction) || is_nan (abs v * fraction)).
Qed.

Lemma calculateAxisBounds_padding_witness :
  (is_minimum (Math_min [50; 10; 90; 30]%float) [50; 10; 90; 30]%float
   ∧ is_maximum (Math_max [50; 10; 90; 30]%float) [50; 10; 90; 30]%float)
  ∧ calculateAxisBounds [50%float] (Some 0.05%float)
    = Some {| min := 47.5; max := 52.5 |}.
Proof.
  destruct calculateAxisBounds_padding as (_ & _ & _ & Hleast & Hsingle & _).
  split.
  - apply Hleast; [discriminate|]. repeat constructor.
  - apply (Hsingle 50%float 0.05%float). reflexivity.
Defined.

(** The bounds of the test suite, in doubles. *)
Example calculateAxisBounds_test_suite :
  calculateAxisBounds [] None = None
  ∧ calculateAxisBounds [0; 100]%float None
    = Some {| min := -5; max := 105 |}
  ∧ calculateAxisBounds [0; 100]%float (Some 0.1%float)
    = Some {| min := -10; max := 110 |}
  ∧ calculateAxisBounds [50%float] None
    = Some {| min := 47.5; max := 52.5 |}
  ∧ calculateAxisBounds [0%float] None = Some {| min := -1; max := 1 |}
  ∧ calculateAxisBounds [-100; -50]%float None
    = Some {| min := (-100 - 50 * 0.05)%float;
              max := (-50 + 50 * 0.05)%float |}
  ∧ calculateAxisBounds [50; 10; 90; 30]%float None
    = Some {| min := (10 - 80 * 0.05)%float; max := (90 + 80 * 0.05)%float |}.
Proof. repeat split. Qed.

(** ** Linear scale *)

Lemma createLinearScale_unfold (d0 d1 r0 r1 v : float) :
  is_zero (d1 - d0) = false →
  createLinearScale d0 d1 r0 r1 v
  = (r0 + (v - d0) / (d1 - d0) * (r1 - r0))%float.
Proof.
  intros Hspan. unfold createLinearScale. cbv zeta.
  change (d1 - d0 =? 0)%float with (is_zero (d1 - d0)). by rewrite Hspan.
Qed.

(** The inverse scale is the scale with domain and range exchanged. *)
Lemma createInverseLinearScale_swap (d0 d1 r0 r1 s : float) :
  createInverseLinearScale d0 d1 r0 r1 s = createLinearScale r0 r1 d0 d1 s.
Proof. reflexivity. Qed.

Lemma scale_at_min (d0 d1 r0 r1 : float) :
  is_finite (d1 - d0) = true → is_zero (d1 - d0) = false →
  is_finite (r1 - r0) = true →
  (createLinearScale d0 d1 r0 r1 d0 =? r0)%float = true.
Proof.
  intros Hd Hnz Hr. rewrite createLinearScale_unfold by done.
  destruct (sub_finite _ _ Hd) as [_ Hd0].
  destruct (sub_finite _ _ Hr) as [_ Hr0].
  rewrite (sub_diag d0) by done.
  apply add_zero; [done|]. apply zero_mul; [|done]. by apply zero_div.
Qed.

Lemma scale_at_max (d0 d1 r0 r1 : float) :
  is_finite (d1 - d0) = true → is_zero (d1 - d0) = false →
  createLinearScale d0 d1 r0 r1 d1 = (r0 + (r1 - r0))%float.
Proof.
  intros Hd Hnz. rewrite createLinearScale_unfold by done.
  by rewrite div_diag, mul_one_l.
Qed.

(** X13: on a domain whose span [d1 - d0] is finite and not zero in double
    arithmetic, a scale maps [d0] to a number equal to [r0] (for a finite
    span of the range) and [d1] to [r0 + (r1 - r0)], which need not be
    [r1]; it is [r1] for a finite range that starts or ends at [0], as the
    two screen scales do.  The same holds for the inverse scale with domain
    and range exchanged. *)
Theorem scale_endpoints (d0 d1 r0 r1 : float) :
  (is_finite (d1 - d0) = true → is_zero (d1 - d0) = false →
   (is_finite (r1 - r0) = true →
    (createLinearScale d0 d1 r0 r1 d0 =? r0)%float = true)
   ∧ createLinearScale d0 d1 r0 r1 d1 = (r0 + (r1 - r0))%float
   ∧ (r0 = 0%float → is_finite r1 = true →
      (createLinearScale d0 d1 r0 r1 d1 =? r1)%float = true)
   ∧ (r1 = 0%float → is_finite r0 = true →
      createLinearScale d0 d1 r0 r1 d1 = 0%float))
  ∧ (is_finite (r1 - r0) = true → is_zero (r1 - r0) = false →
     (is_finite (d1 - d0) = true →
      (createInverseLinearScale d0 d1 r0 r1 r0 =? d0)%float = true)
     ∧ createInverseLinearScale d0 d1 r0 r1 r1 = (d0 + (d1 - d0))%float).
Proof.
  split.
  - intros Hd Hnz. split; [by apply scale_at_min|].
    split; [by apply scale_at_max|]. split.
    + intros -> Hr1. rewrite scale_at_max by done. by apply zero_add_sub.
    + intros -> Hr0. rewrite scale_at_max by done. by apply add_zero_sub.
  - intros Hr Hnz. rewrite !createInverseLinearScale_swap.
    split; [by apply scale_at_min|by apply scale_at_max].
Qed.

Lemma scale_endpoints_witness :
  (createLinearScale 0 100 400 0 0 =? 400)%float = true
  ∧ createLinearScale 0 100 400 0 100 = 0%float.
Proof.
  destruct (scale_endpoints 0 100 400 0) as [Hscale _].
  destruct Hscale as (Hmin & _ & _ & Hzero); [reflexivity..|].
  split; [by apply Hmin|by apply Hzero].
Defined.

(** The end of the range is missed where [r0 + (r1 - r0)] rounds. *)
Example scale_endpoint_rounded :
  createLinearScale 0 1 (-0.365) 7.665 1 = 7.664999999999999%float
  ∧ (createLinearScale 0 1 (-0.365) 7.665 1 =? 7.665)%float = false
  ∧ createLinearScale 0 1 (-1e16) 1 1 = 0%float.
Proof. repeat split. Qed.

(** ** Screen transformer *)

(** C4: a point at [x.min] is not always drawn at [0], nor a point at
    [x.max] at the inner width.  On a degenerate X axis, the bounds [5, 5]
    and an inner width of 500, the point is drawn at 250, the midpoint.  On
    bounds whose span overflows, [-9.68e307] to [9.68e307], and with an
    infinite inner width, the position is not a number. *)
Lemma transformPointsToScreen_degenerate_counterexample :
  let point := mockPoint 5 0 None in
  x point = min (bx flatBounds)
  ∧ y point = min (by_ flatBounds)
  ∧ screenX <$> transformPointsToScreen [point] flatBounds testInner ∅ None
    = [250%float]
  ∧ (250 =? 0)%float = false
  ∧ screenX
      <$> transformPointsToScreen [mockPoint 9.68e307 0 None]
            {| bx := {| min := -9.68e307; max := 9.68e307 |};
               by_ := {| min := 0; max := 100 |} |} testInner ∅ None
    = [nan]
  ∧ screenX
      <$> transformPointsToScreen [mockPoint 0 0 None] squareBounds
            {| width := infinity; height := 400 |} ∅ None
    = [nan].
Proof. repeat split. Qed.

(** C4, amended: [transformPointsToScreen] returns one output per input in
    the same order; each output keeps every field of its input unchanged and
    adds exactly [screenX], [screenY] and [color].  For finite inner
    dimensions and bounds whose spans [x.max - x.min] and [y.max - y.min]
    are finite and not zero in double arithmetic, the Y scale is inverted: a
    point at [(x.min, y.min)] maps to the screen position
    [(0, innerHeight)] and a point at [(x.max, y.max)] to
    [(innerWidth, 0)]. *)
Theorem transformPointsToScreen_frame :
  (∀ (points : list ScatterPoint) (bounds : PlotBounds)
     (inner : InnerDimensions) (colorMap : gmap string (option string))
     (palette : option ColorPalette),
      let rendered := transformPointsToScreen points bounds inner colorMap palette in
      length rendered = length points
      ∧ input_fields <$> rendered = points
      ∧ ∀ (i : nat) (point : ScatterPoint),
          points !! i = Some point →
          ∃ r, rendered !! i = Some r
               ∧ input_fields r = point
               ∧ screenX r
                 = createLinearScale (min (bx bounds)) (max (bx bounds))
                     0%float (width inner) (x point)
               ∧ screenY r
                 = createLinearScale (min (by_ bounds)) (max (by_ bounds))
                     (height inner) 0%float (y point)
               ∧ color r
                 = getPointColor point colorMap
                     (Some (fallback (default DEFAULT_PALETTE palette))))
  ∧ (∀ (bounds : PlotBounds) (inner : InnerDimensions)
       (points : list ScatterPoint) (colorMap : gmap string (option string))
       (palette : option ColorPalette) (i : nat) (point : ScatterPoint),
      let spanX := (max (bx bounds) - min (bx bounds))%float in
      let spanY := (max (by_ bounds) - min (by_ bounds))%float in
      is_finite spanX = true → is_zero spanX = false →
      is_finite spanY = true → is_zero spanY = false →
      is_finite (width inner) = true → is_finite (height inner) = true →
      points !! i = Some point →
      ∃ r, transformPointsToScreen points bounds inner colorMap palette !! i
           = Some r
           ∧ (x point = min (bx bounds) → (screenX r =? 0)%float = true)
           ∧ (y point = min (by_ bounds) →
              (screenY r =? height inner)%float = true)
           ∧ (x point = max (bx bounds) →
              (screenX r =? width inner)%float = true)
           ∧ (y point = max (by_ bounds) → (screenY r =? 0)%float = true)).
Proof.
  split.
  - intros points bounds inner colorMap palette. cbv zeta.
    unfold transformPointsToScreen. cbv zeta.
    split; [by rewrite length_map|].
    split.
    + induction points as [|[] rest IH]; [done|]. cbn [map fmap list_fmap].
      f_equal. exact IH.
    + intros i point Hi. eexists. split.
      { change (map ?f points) with (f <$> points).
        rewrite list_lookup_fmap, Hi. reflexivity. }
      destruct point. repeat split.
  - intros bounds inner points colorMap palette i point. cbv zeta.
    intros Hx Hxnz Hy Hynz Hw Hh Hi. unfold transformPointsToScreen. cbv zeta.
    eexists. split.
    { change (map ?f points) with (f <$> points).
      rewrite list_lookup_fmap, Hi. reflexivity. }
    cbn [screenX screenY].
    split; [|split; [|split]]; intros ->.
    + apply scale_at_min; [done..|]. by rewrite sub_zero_r.
    + apply scale_at_min; [done..|]. by apply zero_sub_finite.
    + rewrite scale_at_max by done. by apply zero_add_sub.
    + rewrite scale_at_max by done. rewrite add_zero_sub by done. reflexivity.
Qed.

Lemma transformPointsToScreen_frame_witness :
  ∃ r, transformPointsToScreen
         [mockPoint 50 50 None; mockPoint 0 0 None; mockPoint 100 100 None]
         squareBounds testInner ∅ None !! 1%nat = Some r
       ∧ (screenX r =? 0)%float = true ∧ (screenY r =? 400)%float = true.
Proof.
  destruct transformPointsToScreen_frame as [_ Hends].
  destruct (Hends squareBounds testInner
              [mockPoint 50 50 None; mockPoint 0 0 None; mockPoint 100 100 None]
              ∅ None 1%nat (mockPoint 0 0 None))
    as (r & Hr & Hx & Hy & _); try reflexivity.
  exists r. split; [exact Hr|]. split; [apply Hx|apply Hy]; reflexivity.
Defined.

(** The screen positions of the test suite, in doubles; beyond the largest
    double a span is infinite and the position is not a number. *)
Example transformPointsToScreen_in_doubles :
  (λ r, (screenX r, screenY r))
    <$> transformPointsToScreen
          [mockPoint 0 0 None; mockPoint 100 100 None; mockPoint 50 50 None]
          squareBounds testInner ∅ None
  = [(0, 400); (500, 0); (250, 200)]%float
  ∧ screenX
      <$> transformPointsToScreen [mockPoint 8.8e307 0 None]
            {| bx := {| min := -9.68e307; max := 9.68e307 |};
               by_ := {| min := 0; max := 100 |} |} testInner ∅ None
    = [nan].
Proof. repeat split. Qed.

(** ** Operations that do not round *)

Lemma exact_spec (op : float → float → float) (real_op : Qc → Qc → Qc)
    (a b : float) :
  exact op real_op a b = true →
  ∃ qa qb, Double.real_of a = Some qa ∧ Double.real_of b = Some qb
           ∧ Double.real_of (op a b) = Some (real_op qa qb).
Proof.
  unfold exact.
  destruct (Double.real_of a) as [qa|]; [|done].
  destruct (Double.real_of b) as [qb|]; [|done].
  destruct (Double.real_of (op a b)) as [q|]; [|done].
  intros ->%bool_decide_eq_true. by exists qa, qb.
Qed.

Lemma real_of_nonzero (a : float) (q : Qc) :
  Double.real_of a = Some q → is_zero a = false → q ≠ 0%Qc.
Proof.
  unfold Double.real_of. rewrite is_zero_SF.
  destruct (Prim2SF a) as [s|s| |s m e]; try done.
  intros [= <-] _ Hq. apply (f_equal this) in Hq. cbn in Hq.
  assert (Hz : (inject_Z (if s then Z.neg m else Z.pos m) * (2 # 1) ^ e == 0)%Q).
  { rewrite <- (Qred_correct (_ * _)). by rewrite Hq. }
  apply Qmult_integral in Hz as [Hz|Hz].
  - destruct s; discriminate Hz.
  - by apply Qpower_not_0 in Hz.
Qed.

Ltac unpack_exact :=
  repeat match goal with
  | H : _ && _ = true |- _ => apply andb_prop in H as [? ?]
  | H : exact _ _ _ _ = true |- _ =>
      apply exact_spec in H as (? & ? & ? & ? & ?)
  | H : bool_decide _ = true |- _ => apply bool_decide_eq_true in H
  end.

Lemma scale_exact_real (d0 d1 r0 r1 v : float) :
  is_zero (d1 - d0) = false → scale_exact d0 d1 r0 r1 v = true →
  ∃ qd0 qd1 qr0 qr1 qv,
    Double.real_of d0 = Some qd0 ∧ Double.real_of d1 = Some qd1
    ∧ Double.real_of r0 = Some qr0 ∧ Double.real_of r1 = Some qr1
    ∧ Double.real_of v = Some qv
    ∧ (qd1 - qd0)%Qc ≠ 0%Qc
    ∧ Double.real_of (createLinearScale d0 d1 r0 r1 v)
      = Some (qr0 + (qv - qd0) / (qd1 - qd0) * (qr1 - qr0))%Qc.
Proof.
  intros Hnz Hexact. rewrite createLinearScale_unfold by done.
  unfold scale_exact in Hexact. cbv zeta in Hexact. unpack_exact.
  simplify_eq.
  repeat match goal with
  | H : Double.real_of ?t = Some _, H' : Double.real_of ?t = Some _ |- _ =>
      rewrite H in H'; injection H' as ?; subst
  end.
  eexists _, _, _, _, _. repeat (split; [eassumption|]).
  split; [|eassumption].
  eapply real_of_nonzero; eassumption.
Qed.

(** Two finite doubles that stand for the same real are equal numbers. *)

Lemma digits2_log2 (m : positive) :
  Zpos (digits2_pos m) = (Z.log2 (Zpos m) + 1)%Z.
Proof.
  assert (Hsize : ∀ p, digits2_pos p = Pos.size p).
  { induction p as [p IH|p IH|]; cbn; by rewrite ?IH. }
  destruct m as [p|p|]; cbn [digits2_pos Z.log2]; rewrite ?Hsize, ?Zpos_succ;
    reflexivity.
Qed.

Lemma digits2_shift (m1 m2 : positive) (k : Z) :
  (0 ≤ k)%Z → Zpos m1 = (Zpos m2 * 2 ^ k)%Z →
  Zpos (digits2_pos m1) = (Zpos (digits2_pos m2) + k)%Z.
Proof.
  intros Hk Hm. rewrite !digits2_log2, Hm, Z.log2_mul_pow2 by lia. lia.
Qed.

Lemma scaled_eq (z1 z2 e1 e2 : Z) :
  (e1 ≤ e2)%Z →
  (inject_Z z1 * (2 # 1) ^ e1 == inject_Z z2 * (2 # 1) ^ e2)%Q →
  z1 = (z2 * 2 ^ (e2 - e1))%Z.
Proof.
  intros He Heq.
  assert (H2 : ¬ ((2 # 1) == 0)%Q) by done.
  replace e2 with ((e2 - e1) + e1)%Z in Heq by lia.
  rewrite Qpower_plus in Heq by done.
  rewrite Qmult_assoc in Heq.
  apply Qmult_inj_r in Heq; [|by apply Qpower_not_0].
  change (2 # 1)%Q with (inject_Z 2) in Heq.
  rewrite <- Zpower_Qpower in Heq by lia.
  rewrite <- inject_Z_mult in Heq.
  by apply (proj1 (inject_Z_injective _ _)).
Qed.

Lemma canonical_unique (m1 m2 : positive) (e1 e2 : Z) (s1 s2 : bool) :
  fexp prec emax (Zpos (digits2_pos m1) + e1) = e1 →
  fexp prec emax (Zpos (digits2_pos m2) + e2) = e2 →
  (inject_Z (if s1 then Z.neg m1 else Z.pos m1) * (2 # 1) ^ e1
   == inject_Z (if s2 then Z.neg m2 else Z.pos m2) * (2 # 1) ^ e2)%Q →
  s1 = s2 ∧ m1 = m2 ∧ e1 = e2.
Proof.
  intros Hc1 Hc2 Heq.
  destruct (Z.le_ge_cases e1 e2) as [He|He].
  - apply scaled_eq in Heq; [|done].
    assert (0 < 2 ^ (e2 - e1))%Z by (apply Z.pow_pos_nonneg; lia).
    assert (Hs : s1 = s2) by (destruct s1, s2; try done; lia).
    subst s2.
    assert (Hm : Zpos m1 = (Zpos m2 * 2 ^ (e2 - e1))%Z)
      by (destruct s1; lia).
    pose proof (digits2_shift m1 m2 (e2 - e1) ltac:(lia) Hm) as Hd.
    assert (e1 = e2) as <-.
    { rewrite <- Hc1, <- Hc2. f_equal. lia. }
    rewrite Z.sub_diag in Hm. split; [done|]. split; [lia|done].
  - symmetry in Heq. apply scaled_eq in Heq; [|done].
    assert (0 < 2 ^ (e1 - e2))%Z by (apply Z.pow_pos_nonneg; lia).
    assert (Hs : s1 = s2) by (destruct s1, s2; try done; lia).
    subst s2.
    assert (Hm : Zpos m2 = (Zpos m1 * 2 ^ (e1 - e2))%Z)
      by (destruct s1; lia).
    pose proof (digits2_shift m2 m1 (e1 - e2) ltac:(lia) Hm) as Hd.
    assert (e1 = e2) as <-.
    { rewrite <- Hc1, <- Hc2. f_equal. lia. }
    rewrite Z.sub_diag in Hm. split; [done|]. split; [lia|done].
Qed.

Lemma real_of_eqb (a b : float) (q : Qc) :
  Double.real_of a = Some q → Double.real_of b = Some q →
  (a =? b)%float = true.
Proof.
  intros Ha Hb.
  destruct (is_zero a) eqn:Hza, (is_zero b) eqn:Hzb.
  - rewrite FloatAxioms.eqb_spec. rewrite is_zero_SF in Hza, Hzb.
    by destruct (Prim2SF a), (Prim2SF b).
  - pose proof (real_of_nonzero b q Hb Hzb) as Hq.
    unfold Double.real_of in Ha. rewrite is_zero_SF in Hza.
    destruct (Prim2SF a); try done. by injection Ha as <-.
  - pose proof (real_of_nonzero a q Ha Hza) as Hq.
    unfold Double.real_of in Hb. rewrite is_zero_SF in Hzb.
    destruct (Prim2SF b); try done. by injection Hb as <-.
  - rewrite FloatAxioms.eqb_spec. unfold Double.real_of in Ha, Hb.
    rewrite is_zero_SF in Hza, Hzb.
    destruct (Prim2SF a) as [sa|sa| |sa ma ea] eqn:Ea; try done.
    destruct (Prim2SF b) as [sb|sb| |sb mb eb] eqn:Eb; try done.
    destruct (valid_finite a _ _ _ Ea) as [Hca _].
    destruct (valid_finite b _ _ _ Eb) as [Hcb _].
    injection Ha as Ha. injection Hb as Hb. rewrite <- Hb in Ha.
    apply (f_equal this) in Ha. cbn in Ha.
    assert (Heq : (inject_Z (if sa then Z.neg ma else Z.pos ma) * (2 # 1) ^ ea
                   == inject_Z (if sb then Z.neg mb else Z.pos mb) * (2 # 1) ^ eb)%Q).
    { rewrite <- (Qred_correct (_ * _ ^ ea)), Ha. apply Qred_correct. }
    destruct (canonical_unique _ _ _ _ _ _ Hca Hcb Heq) as (-> & -> & ->).
    by apply SFeqb_refl.
Qed.

(** ** Linear scale: the round trip *)

Lemma round_trip_exact (d0 d1 r0 r1 v : float) :
  is_zero (d1 - d0) = false → is_zero (r1 - r0) = false →
  scale_exact d0 d1 r0 r1 v = true →
  scale_exact r0 r1 d0 d1 (createLinearScale d0 d1 r0 r1 v) = true →
  (createInverseLinearScale d0 d1 r0 r1 (createLinearScale d0 d1 r0 r1 v)
   =? v)%float = true.
Proof.
  intros Hd Hr Hscale Hinverse. rewrite createInverseLinearScale_swap.
  destruct (scale_exact_real _ _ _ _ _ Hd Hscale)
    as (qd0 & qd1 & qr0 & qr1 & qv & Ed0 & Ed1 & Er0 & Er1 & Ev & Hqd & Es).
  destruct (scale_exact_real _ _ _ _ _ Hr Hinverse)
    as (qr0' & qr1' & qd0' & qd1' & qs & Er0' & Er1' & Ed0' & Ed1' & Es'
        & Hqr & Et).
  simplify_eq.
  apply (real_of_eqb _ _ qv); [|done]. rewrite Et. f_equal. by field.
Qed.

Lemma round_trip_at_min (d0 d1 r0 r1 : float) :
  is_finite (d1 - d0) = true → is_zero (d1 - d0) = false →
  is_finite (r1 - r0) = true → is_zero (r1 - r0) = false →
  (createInverseLinearScale d0 d1 r0 r1 (createLinearScale d0 d1 r0 r1 d0)
   =? d0)%float = true.
Proof.
  intros Hd Hdnz Hr Hrnz.
  destruct (sub_finite _ _ Hd) as [_ Hd0].
  destruct (sub_finite _ _ Hr) as [_ Hr0].
  pose proof (scale_at_min d0 d1 r0 r1 Hd Hdnz Hr) as Hs.
  rewrite createInverseLinearScale_swap, createLinearScale_unfold by done.
  apply add_zero; [done|]. apply zero_mul; [|done].
  apply zero_div; [|done..]. by apply sub_eqb_zero.
Qed.




(** X12: the round trip in the other direction, in double arithmetic: for
    a domain and a range that the code takes as non-degenerate,
    [scale (inverse s)] equals [s] whenever none of the operations of the
    two scales rounds, and it equals [r0] at [s = r0] whenever the two spans
    are finite. *)
Theorem scale_inverse_identity :
  (∀ d0 d1 r0 r1 s : float,
      is_zero (d1 - d0) = false → is_zero (r1 - r0) = false →
      scale_exact r0 r1 d0 d1 s = true →
      scale_exact d0 d1 r0 r1 (createInverseLinearScale d0 d1 r0 r1 s) = true →
      (createLinearScale d0 d1 r0 r1
         (createInverseLinearScale d0 d1 r0 r1 s) =? s)%float = true)
  ∧ (∀ d0 d1 r0 r1 : float,
      is_finite (d1 - d0) = true → is_zero (d1 - d0) = false →
      is_finite (r1 - r0) = true → is_zero (r1 - r0) = false →
      (createLinearScale d0 d1 r0 r1
         (createInverseLinearScale d0 d1 r0 r1 r0) =? r0)%float = true).
Proof.
  split.
  - intros d0 d1 r0 r1 s Hd Hr Hinverse Hscale.
    by apply (round_trip_exact r0 r1 d0 d1 s).
  - intros d0 d1 r0 r1 Hd Hdnz Hr Hrnz.
    by apply (round_trip_at_min r0 r1 d0 d1).
Qed.

Lemma scale_inverse_identity_witness :
  (createLinearScale 0 100 0 500 (createInverseLinearScale 0 100 0 500 125)
   =? 125)%float = true
  ∧ (createLinearScale 5 10 20 40 (createInverseLinearScale 5 10 20 40 20)
     =? 20)%float = true.
Proof.
  destruct scale_inverse_identity as (Hexact & Hmin).
  split.
  - apply Hexact; by vm_compute.
  - apply Hmin; reflexivity.
Defined.

(** ** Tick generator *)

Lemma generateTicks_nth (bounds : AxisBounds) (n i : nat) :
  (i < n)%nat →
  generateTicks bounds (Some n) !! i
  = Some (min bounds
          + of_nat i * ((max bounds - min bounds) / (of_nat n - 1)))%float.
Proof.
  intros Hi. unfold generateTicks. cbv zeta. cbv [default from_option id].
  change (map ?f ?l) with (f <$> l).
  by rewrite list_lookup_fmap, lookup_seq_lt.
Qed.

Lemma first_tick (lo step : float) :
  is_finite lo = true → is_finite step = true →
  (lo + of_nat 0 * step =? lo)%float = true.
Proof.
  intros Hlo Hstep. apply add_zero; [done|]. by apply zero_mul.
Qed.

Lemma last_tick (bounds : AxisBounds) (n : nat) :
  (2 ≤ n)%nat → last_tick_exact bounds n = true →
  (min bounds
   + of_nat (n - 1) * ((max bounds - min bounds) / (of_nat n - 1))
   =? max bounds)%float = true.
Proof.
  intros Hn Hexact. unfold last_tick_exact in Hexact. cbv zeta in Hexact.
  unpack_exact. simplify_eq.
  repeat match goal with
  | H : Double.real_of ?t = Some _, H' : Double.real_of ?t = Some _ |- _ =>
      rewrite H in H'; injection H' as ?; subst
  end.
  eapply real_of_eqb; [eassumption|].
  match goal with H : Double.real_of (max bounds) = Some ?q |- _ =>
    rewrite H end.
  f_equal. field. by apply count_minus_one_neq_0.
Qed.

(** The ticks of the test suite, in doubles. *)
Example generateTicks_test_suite :
  generateTicks {| min := 0; max := 100 |} (Some 5%nat)
  = [0; 25; 50; 75; 100]%float
  ∧ generateTicks {| min := 10; max := 50 |} (Some 5%nat)
    = [10; 20; 30; 40; 50]%float
  ∧ generateTicks {| min := -50; max := 50 |} (Some 5%nat)
    = [-50; -25; 0; 25; 50]%float
  ∧ generateTicks {| min := 0; max := 100 |} (Some 3%nat) = [0; 50; 100]%float
  ∧ generateTicks {| min := 0; max := 100 |} (Some 2%nat) = [0; 100]%float
  ∧ length (generateTicks {| min := 0; max := 100 |} None) = 5%nat.
Proof. repeat split. Qed.

(** C7: in double arithmetic the last tick is not always [max]: twelve
    ticks from 0 to 100 end at 100.00000000000001, and two ticks from
    -0.365 to 7.665 are not [[min, max]]. *)
Lemma generateTicks_last_counterexample :
  list.last (generateTicks {| min := 0; max := 100 |} (Some 12%nat))
  = Some 100.00000000000001%float
  ∧ (100.00000000000001 =? 100)%float = false
  ∧ generateTicks {| min := -0.365; max := 7.665 |} (Some 2%nat)
    = [(-0.365)%float; 7.664999999999999%float]
  ∧ (7.664999999999999 =? 7.665)%float = false.
Proof. repeat split. Qed.

(** C7, amended: for a tick count [n ≥ 2], [generateTicks] returns exactly
    [n] values; the value at position [i] (from 0) is [min + i * step] in
    double arithmetic, with [step = (max - min) / (n - 1)].  The first
    value equals [min] when [min] and the step are finite.  The last value
    is [min + (n - 1) * step]; it equals [max] whenever none of the
    operations that produce it rounds, as for the five ticks
    [0, 25, 50, 75, 100] of the test suite.  The count defaults to 5. *)
Theorem generateTicks_evenly_spaced :
  (∀ (bounds : AxisBounds) (n : nat),
      (2 ≤ n)%nat →
      let step := ((max bounds - min bounds) / (of_nat n - 1))%float in
      let ticks := generateTicks bounds (Some n) in
      length ticks = n
      ∧ (∀ i : nat, (i < n)%nat →
           ticks !! i = Some (min bounds + of_nat i * step)%float)
      ∧ (is_finite (min bounds) = true → is_finite step = true →
         ∃ first, ticks !! 0%nat = Some first
                  ∧ (first =? min bounds)%float = true)
      ∧ (last_tick_exact bounds n = true →
         ∃ last, ticks !! (n - 1)%nat = Some last
                 ∧ (last =? max bounds)%float = true))
  ∧ (∀ bounds, generateTicks bounds None = generateTicks bounds (Some 5%nat))
  ∧ generateTicks {| min := 0; max := 100 |} (Some 5%nat)
    = [0; 25; 50; 75; 100]%float.
Proof.
  split; [|split; reflexivity].
  intros bounds n Hn. cbv zeta.
  split. { unfold generateTicks. cbv zeta. by rewrite length_map, length_seq. }
  split. { intros i Hi. by apply generateTicks_nth. }
  split.
  - intros Hlo Hstep. eexists. split; [apply generateTicks_nth; lia|].
    by apply first_tick.
  - intros Hexact. eexists. split; [apply generateTicks_nth; lia|].
    by apply last_tick.
Qed.

Lemma generateTicks_evenly_spaced_witness :
  let ticks := generateTicks {| min := 10; max := 50 |} (Some 5%nat) in
  length ticks = 5%nat
  ∧ (∃ first, ticks !! 0%nat = Some first ∧ (first =? 10)%float = true)
  ∧ (∃ last, ticks !! 4%nat = Some last ∧ (last =? 50)%float = true).
Proof.
  destruct generateTicks_evenly_spaced as (Hticks & _).
  destruct (Hticks {| min := 10; max := 50 |} 5%nat ltac:(lia))
    as (Hlen & _ & Hfirst & Hlast).
  split; [exact Hlen|]. split; [apply Hfirst; reflexivity|].
  apply Hlast. by vm_compute.
Defined.
